(** * Result validation of NDS-H query outputs

    A shallow embedding of [nds-h/nds_h_validate.py]: the value comparator
    [compare], the row comparator [rowEqual], the loader and orderer
    [collect_results], the per-query driver [compare_results], the suite
    iterator [iterate_queries] and the status reconciler [update_summary].

    Python values are modelled as a tagged union; Python [float] is IEEE 754
    binary64, given by the executable specification of the Standard Library
    ([SpecFloat], precision 53, emax 1024).  Effects (reading datasets,
    advancing row iterators, printing, raising) are threaded through a small
    trace-and-exception monad. *)

From Stdlib Require Import ZArith QArith Lia Bool List String Ascii.
From Stdlib Require Import Floats.SpecFloat.
From stdpp Require Import base option list strings gmap.

Local Open Scope string_scope.
Local Open Scope list_scope.
Local Open Scope Z_scope.

(* ===================================================================== *)
(** ** Python floats: IEEE 754 binary64 *)
(* ===================================================================== *)

Module F64.

Definition prec : Z := 53.
Definition emax : Z := 1024.

Abbreviation float := spec_float.

Definition pinf : float := S754_infinity false.
Definition ninf : float := S754_infinity true.
Definition zero : float := S754_zero false.

Definition valid (x : float) : bool := valid_binary prec emax x.

Definition eqb (x y : float) : bool := SFeqb x y.
Definition ltb (x y : float) : bool := SFltb x y.
Definition leb (x y : float) : bool := SFleb x y.
Definition sub (x y : float) : float := SFsub prec emax x y.
Definition mul (x y : float) : float := SFmul prec emax x y.
Definition fabs (x : float) : float := SFabs x.

(** [math.isnan], [math.isinf] (the C macro [Py_IS_INFINITY]). *)
Definition isnan (x : float) : bool :=
  match x with S754_nan => true | _ => false end.
Definition isinf (x : float) : bool :=
  match x with S754_infinity _ => true | _ => false end.

(** Neither infinite nor NaN. *)
Definition is_finite (x : float) : bool :=
  match x with S754_zero _ | S754_finite _ _ _ => true | _ => false end.

(** The builtin [max(x, y)] on two floats: the first argument is kept
    unless the second is strictly greater. *)
Definition max (x y : float) : float := if ltb x y then y else x.

(** Correctly rounded conversion of the integer ratio [n / d] ([d > 0]),
    the rounding [float(str)] and [float(Decimal)] perform. *)
Definition of_ratio (n : Z) (d : positive) : float :=
  match n with
  | Z0 => zero
  | Zpos p =>
      let '(mz, ez, lz) := SFdiv_core_binary prec emax (Zpos p) 0 (Zpos d) 0 in
      binary_round_aux prec emax false mz ez lz
  | Zneg p =>
      let '(mz, ez, lz) := SFdiv_core_binary prec emax (Zpos p) 0 (Zpos d) 0 in
      binary_round_aux prec emax true mz ez lz
  end.

(** The float nearest to [c * 10^e]. *)
Definition of_decimal (c e : Z) : float :=
  match e with
  | Zneg k => of_ratio c (Pos.pow 10 k)
  | _ => binary_normalize prec emax (c * 10 ^ e) 0 false
  end.

(** The exact rational value of a finite float. *)
Definition to_Q (x : float) : option Q :=
  match x with
  | S754_zero _ => Some 0%Q
  | S754_finite s m e =>
      Some (Qmult (inject_Z (cond_Zopp s (Zpos m))) (Qpower (2 # 1) e))
  | _ => None
  end.

End F64.

(* ===================================================================== *)
(** ** Exceptions and the effect monad *)
(* ===================================================================== *)

(** A row of a query output: scalar values only. *)
Inductive Value :=
| VNull
| VBool (b : bool)
| VInt (n : Z)
| VDecimal (coef : Z) (exp : Z)
| VFloat (x : F64.float)
| VText (s : string).

Abbreviation Row := (list Value).

Inductive exn :=
| ValueError
| StopIteration
| PathNotFound (path : string)
| KeyError (key : string)
| TypeError
| FileNotFoundError (path : string)
| Exception (msg : string).

(** What a run leaves behind, in order. *)
Inductive event :=
| EvLoad (fmt path : string)
| EvNext (side : bool)
| EvCollecting
| EvCollected (n : Z)
| EvRowDiff (i : Z) (lhs rhs : Row)
| EvProcessed (i : Z)
| EvAbort (max_errors : Z)
| EvMatch
| EvErrors (errors : Z)
| EvCountMismatch (count1 count2 : Z)
| EvComparing (query_name : string)
| EvUnmatch (queries : list string)
| EvUpdating (prefix : string).

Definition result (A : Type) : Type := (exn + A)%type.

Global Instance result_ret : MRet result := fun A a => inr a.
Global Instance result_bind : MBind result := fun A B f r =>
  match r with
  | inl e => inl e
  | inr a => f a
  end.

Definition M (A : Type) : Type := list event -> list event * result A.

Global Instance M_ret : MRet M := fun A a t => (t, inr a).
Global Instance M_bind : MBind M := fun A B f m t =>
  match m t with
  | (t', inl e) => (t', inl e)
  | (t', inr a) => f a t'
  end.

Definition raise {A} (e : exn) : M A := fun t => (t, inl e).
Definition emit (ev : event) : M unit := fun t => (t ++ [ev], inr tt).
Definition lift {A} (r : result A) : M A := fun t => (t, r).
Definition run {A} (m : M A) : list event * result A := m [].

(* ===================================================================== *)
(** ** Value comparator *)
(* ===================================================================== *)

(** [math.isclose(a, b, rel_tol=rel_tol)] with the default [abs_tol = 0.0]:
    negative tolerances are rejected, equal values are close, an infinity is
    close to nothing else, otherwise the weak relative test. *)
Definition isclose (a b rel_tol : F64.float) : result bool :=
  if F64.ltb rel_tol F64.zero then inl ValueError
  else if F64.eqb a b then inr true
  else if F64.isinf a || F64.isinf b then inr false
  else
    let diff := F64.fabs (F64.sub b a) in
    inr (F64.leb diff (F64.fabs (F64.mul rel_tol b))
         || F64.leb diff (F64.fabs (F64.mul rel_tol a))
         || F64.leb diff F64.zero).

(** The scalar type of a value, as [isinstance] sees it. *)
Inductive ValueType := TNull | TBool | TInt | TDecimal | TFloat | TText.

Global Instance ValueType_eq_dec : EqDecision ValueType.
Proof. solve_decision. Defined.

Definition type_of (v : Value) : ValueType :=
  match v with
  | VNull => TNull
  | VBool _ => TBool
  | VInt _ => TInt
  | VDecimal _ _ => TDecimal
  | VFloat _ => TFloat
  | VText _ => TText
  end.

(** The exact number a numeric value stands for; [bool] is a subclass of
    [int], NaN and the infinities stand for no number. *)
Definition number_of (v : Value) : option Q :=
  match v with
  | VBool b => Some (inject_Z (if b then 1 else 0))
  | VInt n => Some (inject_Z n)
  | VDecimal c e => Some (Qmult (inject_Z c) (Qpower (10 # 1) e))
  | VFloat x => F64.to_Q x
  | VNull | VText _ => None
  end.

(** Python's [==] on scalar values: numbers of any numeric type compare by
    their exact value, floats among themselves by IEEE equality, text with
    text, [None] with [None]; everything else is unequal. *)
Definition py_eq (x y : Value) : bool :=
  match x, y with
  | VNull, VNull => true
  | VText s, VText t => String.eqb s t
  | VFloat a, VFloat b => F64.eqb a b
  | _, _ =>
      match number_of x, number_of y with
      | Some p, Some q => Qeq_bool p q
      | _, _ => false
      end
  end.

(** [float(d)] for a decimal value. *)
Definition float_of_decimal (coef exp : Z) : F64.float := F64.of_decimal coef exp.

Definition compare (expected actual : Value) (epsilon : F64.float) : result bool :=
  match expected, actual with
  | VFloat e, VFloat a =>
      if F64.isnan e && F64.isnan a then inr true
      else isclose e a epsilon
  | VDecimal ce ee, VDecimal ca ea =>
      isclose (float_of_decimal ce ee) (float_of_decimal ca ea) epsilon
  | _, _ => inr (py_eq expected actual)
  end.

(** [zip(row1, row2)]: stops at the end of the shorter row. *)
Fixpoint zip (row1 row2 : Row) : list (Value * Value) :=
  match row1, row2 with
  | x :: r1, y :: r2 => (x, y) :: zip r1 r2
  | _, _ => []
  end.

(** The list comprehension [[compare(lhs, rhs, epsilon) for ...]]: every
    pair is compared, the first exception escapes. *)
Fixpoint compare_all (ps : list (Value * Value)) (epsilon : F64.float)
  : result (list bool) :=
  match ps with
  | [] => inr []
  | (lhs, rhs) :: ps' =>
      match compare lhs rhs epsilon with
      | inl e => inl e
      | inr b =>
          match compare_all ps' epsilon with
          | inl e => inl e
          | inr bs => inr (b :: bs)
          end
      end
  end.

Definition all (bs : list bool) : bool := forallb id bs.

Definition rowEqual (row1 row2 : Row) (epsilon : F64.float) : result bool :=
  match compare_all (zip row1 row2) epsilon with
  | inl e => inl e
  | inr bs => inr (all bs)
  end.

(** The literals of the tolerance examples. *)
Definition eps_default : F64.float := F64.of_decimal 1 (-5).
Definition f_1_0 : F64.float := F64.of_decimal 1 0.
Definition f_1_0000099999 : F64.float := F64.of_decimal 10000099999 (-10).
Definition f_1_0000200001 : F64.float := F64.of_decimal 10000200001 (-10).

(* ===================================================================== *)
(** ** The data-processing substrate: schemas, data frames, sorting *)
(* ===================================================================== *)

Module Spark.

Inductive DataType :=
| NullType
| BooleanType
| IntegerType
| LongType
| FloatType
| DoubleType
| DecimalType (precision scale : Z)
| StringType.

(** [DataType.typeName()]: the class name without its [Type] suffix, in
    lower case. *)
Definition typeName (t : DataType) : string :=
  match t with
  | NullType => "void"
  | BooleanType => "boolean"
  | IntegerType => "integer"
  | LongType => "long"
  | FloatType => "float"
  | DoubleType => "double"
  | DecimalType _ _ => "decimal"
  | StringType => "string"
  end.

Record StructField := { name : string; dataType : DataType }.

Record DataFrame := { schema : list StructField; rows : list Row }.

(** A column reference [col(name)]. *)
Abbreviation Column := string.
Definition col (name : string) : Column := name.

Definition count (df : DataFrame) : Z := Z.of_nat (length (rows df)).

(** Keep the positions whose mask bit is set. *)
Fixpoint select {A} (mask : list bool) (xs : list A) : list A :=
  match mask, xs with
  | b :: mask', x :: xs' => if b then x :: select mask' xs' else select mask' xs'
  | _, _ => []
  end.

(** [df.drop] with the names unpacked: the named columns leave the schema and every row. *)
Definition drop (names : list string) (df : DataFrame) : DataFrame :=
  let mask := map (fun f => negb (existsb (String.eqb (name f)) names)) (schema df) in
  {| schema := select mask (schema df); rows := map (select mask) (rows df) |}.

(** Ascending order on values, nulls first; NaN is the greatest float and
    the two zeros are equal. *)
Definition type_rank (v : Value) : Z :=
  match v with
  | VNull => 0 | VBool _ => 1 | VInt _ => 2 | VDecimal _ _ => 3
  | VFloat _ => 4 | VText _ => 5
  end.

Definition float_compare (x y : F64.float) : comparison :=
  match SFcompare x y with
  | Some c => c
  | None =>
      match F64.isnan x, F64.isnan y with
      | true, true => Eq
      | true, false => Gt
      | _, _ => Lt
      end
  end.

Definition value_compare (x y : Value) : comparison :=
  match x, y with
  | VNull, VNull => Eq
  | VBool a, VBool b => Bool.compare a b
  | VInt a, VInt b => Z.compare a b
  | VDecimal c1 e1, VDecimal c2 e2 =>
      Qcompare (Qmult (inject_Z c1) (Qpower (10 # 1) e1))
               (Qmult (inject_Z c2) (Qpower (10 # 1) e2))
  | VFloat a, VFloat b => float_compare a b
  | VText s, VText t => String.compare s t
  | _, _ => Z.compare (type_rank x) (type_rank y)
  end.

(** Position of a column in a schema. *)
Fixpoint col_index (c : Column) (sch : list StructField) : option nat :=
  match sch with
  | [] => None
  | f :: sch' => if String.eqb (name f) c then Some O else S <$> col_index c sch'
  end.

Definition key_of (idx : list nat) (r : Row) : list Value :=
  map (fun i => nth i r VNull) idx.

Fixpoint key_compare (k1 k2 : list Value) : comparison :=
  match k1, k2 with
  | x :: k1', y :: k2' =>
      match value_compare x y with
      | Eq => key_compare k1' k2'
      | c => c
      end
  | _, _ => Eq
  end.

Fixpoint insert_row (idx : list nat) (r : Row) (sorted : list Row) : list Row :=
  match sorted with
  | [] => [r]
  | r' :: rest =>
      match key_compare (key_of idx r) (key_of idx r') with
      | Lt => r :: sorted
      | _ => r' :: insert_row idx r rest
      end
  end.

(** [df.sort(cols)]: rows in ascending lexicographic order of the key. *)
Definition sort (cols : list Column) (df : DataFrame) : DataFrame :=
  let idx := omap (fun c => col_index c (schema df)) cols in
  {| schema := schema df;
     rows := fold_right (insert_row idx) [] (rows df) |}.

(** [df.collect()] and [df.toLocalIterator()] deliver the same rows. *)
Definition collect (df : DataFrame) : list Row := rows df.
Definition toLocalIterator (df : DataFrame) : list Row := rows df.

(** What [spark.read.format(fmt).load(path)] finds. *)
Definition Storage : Type := string -> string -> option DataFrame.

End Spark.

Import Spark.

(* ===================================================================== *)
(** ** Dataset loader and orderer *)
(* ===================================================================== *)

Definition SKIP_QUERIES : list string :=
  [ "query15_part1";  (* create view query *)
    "query15_part3"   (* drop view query *) ].

Definition SKIP_COLUMNS : gmap string (list string) :=
  {[ "query18" := ["o_orderkey"] ]}.

Definition non_float_cols (fields : list StructField) : list Column :=
  (fun field => col (name field)) <$>
    filter (fun field => typeName (dataType field)
                           ∉ [typeName FloatType; typeName DoubleType]) fields.

Definition float_cols (fields : list StructField) : list Column :=
  (fun field => col (name field)) <$>
    filter (fun field => typeName (dataType field)
                           ∈ [typeName FloatType; typeName DoubleType]) fields.

(** The composite sort key of a schema. *)
Definition sort_key (fields : list StructField) : list Column :=
  non_float_cols fields ++ float_cols fields.

(** The frame [collect_results] hands to the driver: skipped columns
    dropped, then sorted when ordering is to be ignored. *)
Definition prepare (df : DataFrame) (query_name : string) (ignore_ordering : bool)
  : DataFrame :=
  let df :=
    match SKIP_COLUMNS !! query_name with
    | Some cols => drop cols df
    | None => df
    end in
  if ignore_ordering then sort (sort_key (schema df)) df else df.

Definition collect_results (df : DataFrame) (query_name : string)
    (ignore_ordering use_iterator : bool) : M (list Row) :=
  let df := prepare df query_name ignore_ordering in
  if use_iterator then mret (toLocalIterator df)
  else
    _ ← emit EvCollecting;
    let rows := collect df in
    _ ← emit (EvCollected (Z.of_nat (length rows)));
    mret rows.

(* ===================================================================== *)
(** ** Query comparison driver *)
(* ===================================================================== *)

Definition load (spark_session : Storage) (fmt path : string) : M DataFrame :=
  _ ← emit (EvLoad fmt path);
  match spark_session fmt path with
  | Some df => mret df
  | None => raise (PathNotFound path)
  end.

(** [next(it)]: the head of what is left, or [StopIteration]. *)
Definition next (side : bool) (it : list Row) : M (Row * list Row) :=
  _ ← emit (EvNext side);
  match it with
  | [] => raise StopIteration
  | r :: it' => mret (r, it')
  end.

(** The [while i < count1 and errors < max_errors] loop; it returns the
    final [(i, errors)]. *)
Fixpoint while_rows (epsilon : F64.float) (count1 max_errors : Z)
    (result1 result2 : list Row) (i errors : Z) {struct result1} : M (Z * Z) :=
  if (i <? count1) && (errors <? max_errors) then
    _ ← emit (EvNext true);
    match result1 with
    | [] => raise StopIteration
    | lhs :: result1' =>
        '(rhs, result2') ← next false result2;
        equal ← lift (rowEqual lhs rhs epsilon);
        errors' ← (if negb equal
                   then _ ← emit (EvRowDiff i lhs rhs); mret (errors + 1)
                   else mret errors);
        while_rows epsilon count1 max_errors result1' result2' (i + 1) errors'
    end
  else mret (i, errors).

Definition compare_results (spark_session : Storage)
    (input1 input2 input1_format input2_format : string)
    (ignore_ordering : bool) (query_name : string)
    (use_iterator : bool) (max_errors : Z) (epsilon : F64.float) : M bool :=
  if bool_decide (query_name ∈ SKIP_QUERIES) then mret true
  else
    df1 ← load spark_session input1_format input1;
    df2 ← load spark_session input2_format input2;
    let count1 := count df1 in
    let count2 := count df2 in
    if count1 =? count2 then
      result1 ← collect_results df1 query_name ignore_ordering use_iterator;
      result2 ← collect_results df2 query_name ignore_ordering use_iterator;
      '(i, errors) ← while_rows epsilon count1 max_errors result1 result2 0 0;
      _ ← emit (EvProcessed i);
      if errors =? max_errors then
        _ ← emit (EvAbort max_errors); mret false
      else if errors =? 0 then
        _ ← emit EvMatch; mret true
      else
        _ ← emit (EvErrors errors); mret false
    else
      _ ← emit (EvCountMismatch count1 count2); mret false.

(* ===================================================================== *)
(** ** Suite iterator *)
(* ===================================================================== *)

Fixpoint iterate_loop (spark_session : Storage)
    (input1 input2 input1_format input2_format : string)
    (ignore_ordering use_iterator : bool) (max_errors : Z) (epsilon : F64.float)
    (queries unmatch_queries : list string) : M (list string) :=
  match queries with
  | [] => mret unmatch_queries
  | query_name :: rest =>
      let sub_input1 := (input1 ++ "/" ++ query_name)%string in
      let sub_input2 := (input2 ++ "/" ++ query_name)%string in
      _ ← emit (EvComparing query_name);
      result_equal ← compare_results spark_session sub_input1 sub_input2
                       input1_format input2_format ignore_ordering query_name
                       use_iterator max_errors epsilon;
      iterate_loop spark_session input1 input2 input1_format input2_format
        ignore_ordering use_iterator max_errors epsilon rest
        (if negb result_equal then unmatch_queries ++ [query_name]
         else unmatch_queries)
  end.

(** [query_dict] is given by its keys, in order. *)
Definition iterate_queries (spark_session : Storage)
    (input1 input2 input1_format input2_format : string)
    (ignore_ordering : bool) (query_dict : list string)
    (use_iterator : bool) (max_errors : Z) (epsilon : F64.float)
  : M (list string) :=
  unmatch_queries ← iterate_loop spark_session input1 input2 input1_format
                      input2_format ignore_ordering use_iterator max_errors
                      epsilon query_dict [];
  if negb (length unmatch_queries =? 0)%nat
  then _ ← emit (EvUnmatch unmatch_queries); mret unmatch_queries
  else mret unmatch_queries.

(* ===================================================================== *)
(** ** Status reconciler *)
(* ===================================================================== *)

(** Parsed JSON, as [json.load] returns it. *)
#[local] Set Warnings "-register-all".
Inductive json :=
| JNull
| JBool (b : bool)
| JNum (n : Z)
| JStr (s : string)
| JArr (items : list json)
| JObj (fields : list (string * json)).

Fixpoint is_substring (needle hay : string) : bool :=
  String.prefix needle hay
  || match hay with
     | EmptyString => false
     | String _ hay' => is_substring needle hay'
     end.

Definition is_str (s : string) (j : json) : bool :=
  match j with JStr t => String.eqb s t | _ => false end.

(** [s in x] for a string [s]: an element of a list, a substring of a
    string, a key of a dict. *)
Definition py_in (s : string) (x : json) : result bool :=
  match x with
  | JArr items => inr (existsb (is_str s) items)
  | JStr t => inr (is_substring s t)
  | JObj fields => inr (existsb (fun kv => String.eqb s (fst kv)) fields)
  | _ => inl TypeError
  end.

Fixpoint dict_get (k : string) (fields : list (string * json)) : option json :=
  match fields with
  | [] => None
  | (k', v) :: rest => if String.eqb k' k then Some v else dict_get k rest
  end.

Fixpoint dict_set (k : string) (v : json) (fields : list (string * json))
  : list (string * json) :=
  match fields with
  | [] => [(k, v)]
  | (k', v') :: rest =>
      if String.eqb k' k then (k, v) :: rest else (k', v') :: dict_set k v rest
  end.

(** [summary[k]] *)
Definition getitem (summary : json) (k : string) : result json :=
  match summary with
  | JObj fields =>
      match dict_get k fields with
      | Some v => inr v
      | None => inl (KeyError k)
      end
  | _ => inl TypeError
  end.

(** [summary[k] = v] *)
Definition setitem (summary : json) (k : string) (v : json) : result json :=
  match summary with
  | JObj fields => inr (JObj (dict_set k v fields))
  | _ => inl TypeError
  end.

Record FileSystem := {
  path_exists : string -> bool;
  glob_glob : string -> list string
}.

(** The first [with] block of the loop body: the summary with its
    [queryValidationStatus] set. *)
Definition validation_status (summary : json) (query_name : string)
    (unmatch_queries : list string) : result json :=
  if bool_decide (query_name ∈ unmatch_queries) then
    status ← getitem summary "queryStatus";
    completed ← py_in "Completed" status;
    completed' ← (if completed : bool then inr true
                  else py_in "CompletedWithTaskFailures" status);
    if completed' : bool
    then setitem summary "queryValidationStatus" (JArr [JStr "Fail"])
    else setitem summary "queryValidationStatus" (JArr [JStr "NotAttempted"])
  else setitem summary "queryValidationStatus" (JArr [JStr "Pass"]).

(** The body of the loop over [query_dict.keys()]: [files] maps a file
    name to its parsed content. *)
Definition update_one (fs : FileSystem) (prefix : string)
    (unmatch_queries : list string) (query_name : string)
    (files : gmap string json) : M (gmap string json) :=
  let summary_wildcard := (prefix ++ "/*" ++ query_name ++ "-*.json")%string in
  let file_glob := glob_glob fs summary_wildcard in
  if (1 <? length file_glob)%nat then
    raise (Exception ("More than one summary file found for query "
                      ++ query_name ++ " in folder " ++ prefix ++ "."))
  else if (length file_glob =? 0)%nat then
    raise (Exception ("No summary file found for query "
                      ++ query_name ++ " in folder " ++ prefix ++ "."))
  else
    match file_glob with
    | [] => raise (Exception "IndexError")
    | filename :: _ =>
        match files !! filename with
        | None => raise (FileNotFoundError filename)
        | Some summary =>
            summary' ← lift (validation_status summary query_name unmatch_queries);
            mret (<[filename := summary']> files)
        end
    end.

Fixpoint update_loop (fs : FileSystem) (prefix : string)
    (unmatch_queries : list string) (queries : list string)
    (files : gmap string json) : M (gmap string json) :=
  match queries with
  | [] => mret files
  | query_name :: rest =>
      files' ← update_one fs prefix unmatch_queries query_name files;
      update_loop fs prefix unmatch_queries rest files'
  end.

Definition update_summary (fs : FileSystem) (query_dict : list string)
    (prefix : string) (unmatch_queries : list string)
    (files : gmap string json) : M (gmap string json) :=
  if negb (path_exists fs prefix) then
    raise (Exception "The json summary folder doesn't exist.")
  else
    _ ← emit (EvUpdating prefix);
    update_loop fs prefix unmatch_queries query_dict files.

(* ===================================================================== *)
(** ** Vocabulary of the properties *)
(* ===================================================================== *)

(** ** Reading a trace *)

(** The mismatching row pairs a run reported, with their row index. *)
Definition sampled (t : list event) : list (Z * Row * Row) :=
  omap (fun ev => match ev with
                  | EvRowDiff i lhs rhs => Some (i, lhs, rhs)
                  | _ => None
                  end) t.

(** How many rows a run pulled from one of the two iterators. *)
Definition is_next (side : bool) (ev : event) : bool :=
  match ev with EvNext s => Bool.eqb s side | _ => false end.

Definition consumed (side : bool) (t : list event) : Z :=
  Z.of_nat (length (List.filter (is_next side) t)).

Definition is_load (ev : event) : bool :=
  match ev with EvLoad _ _ => true | _ => false end.

(** Events of the row-by-row comparison. *)
Definition is_row_event (ev : event) : bool :=
  match ev with EvNext _ | EvRowDiff _ _ _ => true | _ => false end.

(** Events that report differing content. *)
Definition is_content_report (ev : event) : bool :=
  match ev with EvRowDiff _ _ _ | EvAbort _ | EvErrors _ => true | _ => false end.

Definition is_count_report (ev : event) : bool :=
  match ev with EvCountMismatch _ _ => true | _ => false end.

(** A tolerance [math.isclose] accepts. *)
Definition tolerance_ok (epsilon : F64.float) : Prop :=
  F64.ltb epsilon F64.zero = false.

(** ** Counting mismatches *)

(** Whether a pair of rows passes the row comparator. *)
Definition row_matches (epsilon : F64.float) (p : Row * Row) : bool :=
  match rowEqual (fst p) (snd p) epsilon with
  | inr b => b
  | inl _ => false
  end.

(** The number of pairs the row comparator rejects. *)
Definition mismatches (epsilon : F64.float) (ps : list (Row * Row)) : Z :=
  Z.of_nat (length (List.filter (fun p => negb (row_matches epsilon p)) ps)).

(** What [collect_results] prints. *)
Definition collect_trace (use_iterator : bool) (n : Z) : list event :=
  if use_iterator then [] else [EvCollecting; EvCollected n].

(** The last report of a comparison with equal counts, and its verdict. *)
Definition final_report (errors max_errors : Z) : event :=
  if errors =? max_errors then EvAbort max_errors
  else if errors =? 0 then EvMatch
  else EvErrors errors.

Definition verdict_of (errors max_errors : Z) : bool :=
  negb (errors =? max_errors) && (errors =? 0).


(** ** Sample inputs *)

(** A frame with one [long] column. *)
Definition long_frame (ns : list Z) : DataFrame :=
  {| schema := [ {| name := "n"; dataType := LongType |} ];
     rows := map (fun n => [VInt n]) ns |}.

(** A storage with one frame at [left] and one at [right]. *)
Definition two_sided (l r : DataFrame) : Storage :=
  fun _ path =>
    if String.eqb path "left" then Some l
    else if String.eqb path "right" then Some r
    else None.

(** The sort key as the specification words it: the decimal columns grouped
    with the floating-point ones, after all the others. *)
Definition claimed_sort_key (fields : list StructField) : list Column :=
  ((fun field => col (name field)) <$>
     filter (fun field => typeName (dataType field)
               ∉ [typeName FloatType; typeName DoubleType; typeName (DecimalType 0 0)])
            fields)
  ++ ((fun field => col (name field)) <$>
        filter (fun field => typeName (dataType field)
                  ∈ [typeName FloatType; typeName DoubleType; typeName (DecimalType 0 0)])
               fields).

(** A decimal column before a [long] one, and two rows that the two keys
    order differently. *)
Definition price_frame : DataFrame :=
  {| schema := [ {| name := "price"; dataType := DecimalType 10 2 |};
                 {| name := "qty"; dataType := LongType |} ];
     rows := [ [VDecimal 200 (-2); VInt 1]; [VDecimal 100 (-2); VInt 2] ] |}.

(** The glob pattern of a query's summary file. *)
Definition summary_wildcard (prefix query_name : string) : string :=
  prefix ++ "/*" ++ query_name ++ "-*.json".

(** Whether a [queryStatus] array says the run completed, fully or with
    task failures. *)
Definition completed (status : list json) : bool :=
  existsb (is_str "Completed") status
  || existsb (is_str "CompletedWithTaskFailures") status.

(** The validation status the reconciler writes. *)
Definition new_status (unmatch_queries : list string) (query_name : string)
    (status : list json) : string :=
  if bool_decide (query_name ∈ unmatch_queries)
  then if completed status then "Fail" else "NotAttempted"
  else "Pass".

(** A summary folder with one file per query, and its glob. *)
Definition summary_of (status : string) : json :=
  JObj [("queryStatus", JArr [JStr status]);
        ("queryValidationStatus", JArr [JStr "NotAttempted"])].

Definition demo_files : gmap string json :=
  {[ "s/p-query1-1.json" := summary_of "Completed";
     "s/p-query2-1.json" := summary_of "Failed";
     "s/p-query3-1.json" := summary_of "Failed" ]}.

Definition demo_file_of (query_name : string) : string :=
  "s/p-" ++ query_name ++ "-1.json".

Definition demo_fs : FileSystem :=
  {| path_exists := fun p => String.eqb p "s";
     glob_glob := fun pat =>
       if String.eqb pat (summary_wildcard "s" "query1") then [demo_file_of "query1"]
       else if String.eqb pat (summary_wildcard "s" "query2") then [demo_file_of "query2"]
       else if String.eqb pat (summary_wildcard "s" "query3") then [demo_file_of "query3"]
       else [] |}.

Definition demo_fields (query_name : string) : list (string * json) :=
  [("queryStatus",
    JArr [JStr (if String.eqb query_name "query1" then "Completed" else "Failed")]);
   ("queryValidationStatus", JArr [JStr "NotAttempted"])].

Definition demo_status (query_name : string) : list json :=
  [JStr (if String.eqb query_name "query1" then "Completed" else "Failed")].

(** A computation only appends to the trace it is given, what it appends
    and what it returns do not depend on that trace, and every event it
    appends satisfies [P]. *)
Definition appends (P : event -> Prop) {A} (m : M A) : Prop :=
  Forall P (fst (m [])) /\ forall t, m t = (t ++ fst (m []), snd (m [])).

(** The queries a run of the suite announced, in order. *)
Definition compared (t : list event) : list string :=
  omap (fun ev => match ev with EvComparing q => Some q | _ => None end) t.

Definition not_comparing (ev : event) : Prop :=
  match ev with EvComparing _ => False | _ => True end.

(** The outcome of comparing one query of a suite rooted at [input1] and
    [input2]. *)
Definition query_outcome (spark_session : Storage)
    (input1 input2 input1_format input2_format : string)
    (ignore_ordering use_iterator : bool) (max_errors : Z) (epsilon : F64.float)
    (query_name : string) : result bool :=
  snd (run (compare_results spark_session
              (input1 ++ "/" ++ query_name)%string
              (input2 ++ "/" ++ query_name)%string
              input1_format input2_format ignore_ordering query_name
              use_iterator max_errors epsilon)).

(** Whether a query's comparison returned a failed verdict. *)
Definition is_unmatched (outcome : result bool) : bool :=
  match outcome with inr false => true | _ => false end.

(** A suite of outputs under the roots [l] and [r]: [query1] agrees,
    [query2] differs, [query3] is absent. *)
Definition suite_storage : Storage :=
  fun _ path =>
    if String.eqb path "l/query1" then Some (long_frame [1; 2])
    else if String.eqb path "r/query1" then Some (long_frame [1; 2])
    else if String.eqb path "l/query2" then Some (long_frame [1])
    else if String.eqb path "r/query2" then Some (long_frame [3])
    else None.


(** Whether [compare] hands a pair of values to [math.isclose]. *)
Definition uses_tolerance (x y : Value) : bool :=
  match x, y with
  | VFloat a, VFloat b => negb (F64.isnan a && F64.isnan b)
  | VDecimal _ _, VDecimal _ _ => true
  | _, _ => false
  end.

(** The queries of [queries] each have exactly one summary file, an object,
    with a [queryStatus] array where validation failed, and no two share a
    file. *)
Definition summaries_in_place (fs : FileSystem) (prefix : string)
    (unmatch_queries : list string) (file_of : string -> string)
    (fields_of : string -> list (string * json))
    (status_of : string -> list json)
    (queries : list string) (files : gmap string json) : Prop :=
  (forall q, q ∈ queries ->
     glob_glob fs (summary_wildcard prefix q) = [file_of q]
     /\ files !! file_of q = Some (JObj (fields_of q)))
  /\ (forall q, q ∈ queries -> q ∈ unmatch_queries ->
        dict_get "queryStatus" (fields_of q) = Some (JArr (status_of q)))
  /\ NoDup (file_of <$> queries).

(** A folder where [query4] has a summary without [queryStatus] and
    [query8] has two summary files. *)
Definition wide_fs : FileSystem :=
  {| path_exists := fun p => String.eqb p "s";
     glob_glob := fun pat =>
       if String.eqb pat (summary_wildcard "s" "query1") then [demo_file_of "query1"]
       else if String.eqb pat (summary_wildcard "s" "query4") then [demo_file_of "query4"]
       else if String.eqb pat (summary_wildcard "s" "query8")
            then ["s/a-query8-1.json"; "s/b-query8-2.json"]
       else [] |}.

Definition wide_files : gmap string json :=
  <[ "s/p-query4-1.json" := JObj [("queryValidationStatus", JArr [])] ]> demo_files.

(** Two frames with one schema and as many rows, whose rows differ at most
    in the columns named in [cols]. *)
Definition agree_outside (cols : list string) (df df' : DataFrame) : Prop :=
  schema df = schema df'
  /\ Forall2 (fun r r' : Row =>
                length r = length r'
                /\ forall i f, schema df !! i = Some f -> name f ∉ cols ->
                               r !! i = r' !! i)
       (rows df) (rows df').

(** Orders that differ in [o_orderkey] only. *)
Definition orders_frame (k1 k2 : Z) : DataFrame :=
  {| schema := [ {| name := "o_orderkey"; dataType := LongType |};
                 {| name := "o_totalprice"; dataType := DecimalType 12 2 |} ];
     rows := [ [VInt k1; VDecimal 1050 (-2)]; [VInt k2; VDecimal 990 (-2)] ] |}.

(** The shape of a rounded value: a zero, a finite number or an infinity of
    the sign given. *)
Definition signed_as (s : bool) (x : F64.float) : Prop :=
  match x with
  | S754_zero s' | S754_infinity s' | S754_finite s' _ _ => s' = s
  | S754_nan => False
  end.

(* ===================================================================== *)
(** * Properties *)
(* ===================================================================== *)

(** ** The literals *)

Example eps_default_bits :
  eps_default = S754_finite false 5902958103587057 (-69).
Proof. vm_compute. reflexivity. Qed.

Example f_1_0000099999_bits :
  f_1_0000099999 = S754_finite false 4503644662916410 (-52).
Proof. vm_compute. reflexivity. Qed.

(** ** The monad *)

Lemma bind_ok {A B} (m : M A) (k : A -> M B) t t' a :
  m t = (t', inr a) -> (x ← m; k x) t = k a t'.
Proof. intros H. unfold mbind, M_bind. rewrite H. reflexivity. Qed.

Lemma bind_raise {A B} (m : M A) (k : A -> M B) t t' e :
  m t = (t', inl e) -> (x ← m; k x) t = (t', inl e).
Proof. intros H. unfold mbind, M_bind. rewrite H. reflexivity. Qed.

Lemma bind_emit {B} (ev : event) (k : unit -> M B) t :
  (x ← emit ev; k x) t = k tt (t ++ [ev]).
Proof. reflexivity. Qed.

Lemma load_some spark_session fmt path df t :
  spark_session fmt path = Some df ->
  load spark_session fmt path t = (t ++ [EvLoad fmt path], inr df).
Proof. intros H. unfold load. rewrite bind_emit, H. reflexivity. Qed.

Lemma skip_queries_spec q :
  q ∈ SKIP_QUERIES <-> q = "query15_part1" \/ q = "query15_part3".
Proof.
  unfold SKIP_QUERIES. rewrite !elem_of_cons, elem_of_nil. tauto.
Qed.

(** ** Skip list *)

(** C8: a query on the skip list (the view-management statements
    [query15_part1] and [query15_part3]) is reported as matched and the run
    leaves an empty trace: nothing is loaded, so whatever the storage holds
    at the two paths, even nothing, is irrelevant. *)
Theorem C8_skip_list_matches_without_loading
    (spark_session : Storage) (input1 input2 input1_format input2_format : string)
    (ignore_ordering use_iterator : bool) (query_name : string)
    (max_errors : Z) (epsilon : F64.float) :
  query_name = "query15_part1" \/ query_name = "query15_part3" ->
  query_name ∈ SKIP_QUERIES /\
  run (compare_results spark_session input1 input2 input1_format input2_format
         ignore_ordering query_name use_iterator max_errors epsilon)
  = ([], inr true).
Proof.
  intros H. apply skip_queries_spec in H. split; [exact H|].
  unfold run, compare_results. rewrite bool_decide_eq_true_2 by exact H.
  reflexivity.
Qed.

Lemma C8_skip_list_witness :
  run (compare_results (fun _ _ => None) "out1/query15_part1" "out2/query15_part1"
         "parquet" "orc" true "query15_part1" false 10 eps_default)
  = ([], inr true).
Proof.
  apply (C8_skip_list_matches_without_loading (fun _ _ => None)
           "out1/query15_part1" "out2/query15_part1" "parquet" "orc"
           true false "query15_part1" 10 eps_default).
  left. reflexivity.
Defined.

(** ** Row counts *)

(** ** The comparators never fail under an accepted tolerance *)

Lemma isclose_total a b epsilon :
  tolerance_ok epsilon -> exists r, isclose a b epsilon = inr r.
Proof.
  unfold tolerance_ok, isclose. intros ->.
  destruct (F64.eqb a b); [eauto|].
  destruct (F64.isinf a || F64.isinf b); eauto.
Qed.

Lemma compare_total x y epsilon :
  tolerance_ok epsilon -> exists r, compare x y epsilon = inr r.
Proof.
  intros H. destruct x, y; simpl; eauto using isclose_total.
  destruct (F64.isnan x && F64.isnan x0); eauto using isclose_total.
Qed.

Lemma compare_all_total ps epsilon :
  tolerance_ok epsilon -> exists bs, compare_all ps epsilon = inr bs.
Proof.
  intros H. induction ps as [|[lhs rhs] ps [bs IH]]; simpl; [eauto|].
  destruct (compare_total lhs rhs epsilon H) as [b ->]. rewrite IH. eauto.
Qed.

Lemma rowEqual_total row1 row2 epsilon :
  tolerance_ok epsilon -> exists r, rowEqual row1 row2 epsilon = inr r.
Proof.
  intros H. unfold rowEqual.
  destruct (compare_all_total (zip row1 row2) epsilon H) as [bs ->]. eauto.
Qed.

Lemma mismatches_nil epsilon : mismatches epsilon [] = 0.
Proof. reflexivity. Qed.

Lemma mismatches_cons epsilon p ps :
  mismatches epsilon (p :: ps)
  = (if row_matches epsilon p then 0 else 1) + mismatches epsilon ps.
Proof.
  unfold mismatches. simpl. destruct (row_matches epsilon p); simpl; lia.
Qed.





(** ** The row loop *)

Lemma while_rows_exit epsilon count1 max_errors result1 result2 i errors t :
  (i <? count1) && (errors <? max_errors) = false ->
  while_rows epsilon count1 max_errors result1 result2 i errors t
  = (t, inr (i, errors)).
Proof. intros H. destruct result1; simpl; rewrite H; reflexivity. Qed.

Lemma while_rows_step epsilon count1 max_errors lhs result1 rhs result2 i errors t b :
  (i <? count1) && (errors <? max_errors) = true ->
  rowEqual lhs rhs epsilon = inr b ->
  while_rows epsilon count1 max_errors (lhs :: result1) (rhs :: result2) i errors t
  = while_rows epsilon count1 max_errors result1 result2 (i + 1)
      (if b then errors else errors + 1)
      (t ++ [EvNext true] ++ [EvNext false]
         ++ (if b then [] else [EvRowDiff i lhs rhs])).
Proof.
  intros Hg Hb. simpl. rewrite Hg.
  unfold mbind, M_bind, emit, next, lift, mret, M_ret. simpl. rewrite Hb.
  destruct b; simpl; rewrite <- ?app_assoc; reflexivity.
Qed.

Lemma sampled_app t1 t2 : sampled (t1 ++ t2) = sampled t1 ++ sampled t2.
Proof. apply omap_app. Qed.

Lemma consumed_app side t1 t2 :
  consumed side (t1 ++ t2) = consumed side t1 + consumed side t2.
Proof. unfold consumed. rewrite List.filter_app, length_app. lia. Qed.

(** The loop pulls [n] rows from each side: as many as it takes for the
    error count to reach the cap, or all of them. *)
Lemma while_rows_spec epsilon count1 max_errors :
  tolerance_ok epsilon ->
  forall result1 result2 i errors t,
    length result1 = length result2 ->
    count1 = i + Z.of_nat (length result1) ->
    exists (n : nat) (t' : list event),
      while_rows epsilon count1 max_errors result1 result2 i errors t
        = (t ++ t',
           inr (i + Z.of_nat n,
                errors + mismatches epsilon (firstn n (combine result1 result2))))
      /\ (n <= length result1)%nat
      /\ (forall j, (j < n)%nat ->
            errors + mismatches epsilon (firstn j (combine result1 result2))
            < max_errors)
      /\ ((n < length result1)%nat ->
            max_errors
            <= errors + mismatches epsilon (firstn n (combine result1 result2)))
      /\ Z.of_nat (length (sampled t'))
         = mismatches epsilon (firstn n (combine result1 result2))
      /\ consumed true t' = Z.of_nat n
      /\ consumed false t' = Z.of_nat n
      /\ Forall (fun ev => is_row_event ev = true) t'
      /\ Forall (fun s => exists k, (k < n)%nat
                   /\ fst (fst s) = i + Z.of_nat k
                   /\ combine result1 result2 !! k = Some (snd (fst s), snd s)
                   /\ row_matches epsilon (snd (fst s), snd s) = false)
           (sampled t').
Proof.
  intros Heps result1.
  induction result1 as [|lhs result1 IH]; intros [|rhs result2] i errors t Hlen Hcount;
    simpl in Hlen; try discriminate.
  - exists O, []. rewrite while_rows_exit, app_nil_r.
    + simpl. rewrite mismatches_nil, !Z.add_0_r.
      repeat split; try (intros; lia); constructor.
    + simpl in Hcount. replace (i <? count1) with false; [reflexivity|].
      symmetry. apply Z.ltb_ge. lia.
  - destruct ((i <? count1) && (errors <? max_errors)) eqn:Hg.
    2:{ exists O, []. rewrite while_rows_exit by exact Hg. rewrite app_nil_r.
        simpl firstn. rewrite mismatches_nil, !Z.add_0_r.
        simpl in Hcount.
        repeat split; try (intros; lia); try constructor. }
    destruct (rowEqual_total lhs rhs epsilon Heps) as [b Hb].
    rewrite (while_rows_step _ _ _ _ _ _ _ _ _ _ b Hg Hb).
    injection Hlen as Hlen.
    destruct (IH result2 (i + 1) (if b then errors else errors + 1)
                (t ++ [EvNext true] ++ [EvNext false]
                   ++ (if b then [] else [EvRowDiff i lhs rhs])) Hlen)
      as (n & t' & Hrun & Hn & Hbelow & Hstop & Hsamp & Hc1 & Hc2 & Hev & Hrows).
    { simpl in Hcount. lia. }
    assert (Hm : row_matches epsilon (lhs, rhs) = b).
    { unfold row_matches. simpl. rewrite Hb. reflexivity. }
    apply andb_true_iff in Hg as [_ Herr]. apply Z.ltb_lt in Herr.
    exists (S n), ([EvNext true] ++ [EvNext false]
                   ++ (if b then [] else [EvRowDiff i lhs rhs]) ++ t').
    simpl combine. simpl firstn. rewrite mismatches_cons, Hm.
    split; [|split; [|split; [|split; [|split; [|split; [|split]]]]]].
    + rewrite Hrun. f_equal.
      * rewrite <- !app_assoc. reflexivity.
      * f_equal. f_equal; [lia|]. destruct b; lia.
    + simpl. lia.
    + intros [|j] Hj.
      * simpl. rewrite mismatches_nil. lia.
      * simpl firstn. rewrite mismatches_cons, Hm.
        specialize (Hbelow j ltac:(lia)). destruct b; lia.
    + intros Hlt. simpl in Hlt. specialize (Hstop ltac:(lia)). destruct b; lia.
    + rewrite !sampled_app, !length_app. destruct b; simpl; lia.
    + rewrite !consumed_app, Hc1. destruct b; simpl; unfold consumed; simpl; lia.
    + rewrite !consumed_app, Hc2. destruct b; simpl; unfold consumed; simpl; lia.
    + split.
      * repeat (apply Forall_app; split); try (repeat constructor).
        -- destruct b; repeat constructor.
        -- exact Hev.
      * rewrite !sampled_app. repeat (apply Forall_app; split);
          try (simpl; constructor).
        -- destruct b; simpl; constructor; [|constructor].
           exists O. simpl. repeat split; [lia|lia|exact Hm].
        -- eapply Forall_impl; [exact Hrows|].
           intros [[j l] r] (k & Hk & Hj & Hlook & Hneq). simpl in *.
           exists (S k). repeat split; [lia|lia|exact Hlook|exact Hneq].
Qed.

(** ** Loading and ordering keep the row count *)

Lemma insert_row_length idx r sorted :
  length (insert_row idx r sorted) = S (length sorted).
Proof.
  induction sorted as [|r' rest IH]; simpl; [reflexivity|].
  destruct (key_compare (key_of idx r) (key_of idx r')); simpl; congruence.
Qed.

Lemma sort_count cols df : count (sort cols df) = count df.
Proof.
  unfold count, sort. simpl. f_equal.
  induction (rows df) as [|r rs IH]; simpl; [reflexivity|].
  rewrite insert_row_length. congruence.
Qed.

Lemma drop_count names df : count (drop names df) = count df.
Proof. unfold count, drop. simpl. rewrite length_map. reflexivity. Qed.

Lemma prepare_count df query_name ignore_ordering :
  count (prepare df query_name ignore_ordering) = count df.
Proof.
  unfold prepare.
  destruct ignore_ordering; [rewrite sort_count|];
    destruct (SKIP_COLUMNS !! query_name); auto using drop_count.
Qed.

Lemma collect_results_run df query_name ignore_ordering use_iterator t :
  collect_results df query_name ignore_ordering use_iterator t
  = (t ++ collect_trace use_iterator (count df),
     inr (rows (prepare df query_name ignore_ordering))).
Proof.
  unfold collect_results, collect_trace.
  destruct use_iterator.
  - rewrite app_nil_r. reflexivity.
  - rewrite !bind_emit. unfold collect, mret, M_ret.
    rewrite <- (prepare_count df query_name ignore_ordering).
    unfold count. rewrite <- app_assoc. reflexivity.
Qed.

Lemma compare_results_tail i errors max_errors t :
  (_ ← emit (EvProcessed i);
   if errors =? max_errors then
     _ ← emit (EvAbort max_errors); mret false
   else if errors =? 0 then
     _ ← emit EvMatch; mret true
   else
     _ ← emit (EvErrors errors); mret false) t
  = (t ++ [EvProcessed i; final_report errors max_errors],
     inr (verdict_of errors max_errors)).
Proof.
  rewrite bind_emit. unfold final_report, verdict_of.
  destruct (errors =? max_errors); [|destruct (errors =? 0)];
    rewrite bind_emit; unfold mret, M_ret; rewrite <- app_assoc; reflexivity.
Qed.

(** A comparison with equal counts, whatever the cap: the trace is the two
    loads, what collecting prints, the row events of the loop, and the two
    closing reports. *)
Lemma compare_results_equal_counts
    (spark_session : Storage) (input1 input2 input1_format input2_format : string)
    (ignore_ordering use_iterator : bool) (query_name : string)
    (max_errors : Z) (epsilon : F64.float) (df1 df2 : DataFrame) :
  query_name ∉ SKIP_QUERIES ->
  spark_session input1_format input1 = Some df1 ->
  spark_session input2_format input2 = Some df2 ->
  count df1 = count df2 ->
  tolerance_ok epsilon ->
  let ps := combine (rows (prepare df1 query_name ignore_ordering))
                    (rows (prepare df2 query_name ignore_ordering)) in
  exists (n : nat) (t' : list event),
    let errors := mismatches epsilon (firstn n ps) in
    run (compare_results spark_session input1 input2 input1_format input2_format
           ignore_ordering query_name use_iterator max_errors epsilon)
    = ([EvLoad input1_format input1; EvLoad input2_format input2]
         ++ collect_trace use_iterator (count df1)
         ++ collect_trace use_iterator (count df2)
         ++ t' ++ [EvProcessed (Z.of_nat n); final_report errors max_errors],
       inr (verdict_of errors max_errors))
    /\ (n <= length ps)%nat
    /\ (forall j, (j < n)%nat -> mismatches epsilon (firstn j ps) < max_errors)
    /\ ((n < length ps)%nat -> max_errors <= errors)
    /\ Z.of_nat (length (sampled t')) = errors
    /\ consumed true t' = Z.of_nat n
    /\ consumed false t' = Z.of_nat n
    /\ Forall (fun ev => is_row_event ev = true) t'
    /\ Forall (fun s => exists k, (k < n)%nat
                 /\ fst (fst s) = Z.of_nat k
                 /\ ps !! k = Some (snd (fst s), snd s)
                 /\ row_matches epsilon (snd (fst s), snd s) = false)
         (sampled t').
Proof.
  intros Hskip H1 H2 Hcount Heps ps.
  pose proof (prepare_count df1 query_name ignore_ordering) as Hc1.
  pose proof (prepare_count df2 query_name ignore_ordering) as Hc2.
  assert (Hlen : length (rows (prepare df1 query_name ignore_ordering))
                 = length (rows (prepare df2 query_name ignore_ordering))).
  { unfold count in *. lia. }
  destruct (while_rows_spec epsilon (count df1) max_errors Heps
              (rows (prepare df1 query_name ignore_ordering))
              (rows (prepare df2 query_name ignore_ordering)) 0 0
              ([EvLoad input1_format input1; EvLoad input2_format input2]
                 ++ collect_trace use_iterator (count df1)
                 ++ collect_trace use_iterator (count df2)) Hlen)
    as (n & t' & Hrun & Hn & Hbelow & Hstop & Hsamp & Hcs1 & Hcs2 & Hev & Hrows).
  { unfold count in *. lia. }
  exists n, t'. cbv zeta.
  assert (Hps : length ps = length (rows (prepare df1 query_name ignore_ordering))).
  { unfold ps. rewrite length_combine. lia. }
  split; [|split; [|split; [|split; [|split; [|split; [|split]]]]]].
  - unfold run, compare_results.
    rewrite bool_decide_eq_false_2 by exact Hskip.
    rewrite (bind_ok _ _ _ _ _ (load_some _ _ _ _ _ H1)).
    rewrite (bind_ok _ _ _ _ _ (load_some _ _ _ _ _ H2)).
    apply Z.eqb_eq in Hcount as Hcb. rewrite Hcb.
    rewrite (bind_ok _ _ _ _ _ (collect_results_run _ _ _ _ _)).
    rewrite (bind_ok _ _ _ _ _ (collect_results_run _ _ _ _ _)).
    rewrite app_nil_l, <- !app_assoc.
    etransitivity; [apply (bind_ok _ _ _ _ _ Hrun)|].
    rewrite compare_results_tail, !Z.add_0_l.
    rewrite <- !app_assoc. reflexivity.
  - lia.
  - intros j Hj. specialize (Hbelow j Hj). fold ps in Hbelow. lia.
  - intros Hlt. fold ps in Hstop. rewrite Hps in Hlt. specialize (Hstop Hlt). lia.
  - exact Hsamp.
  - exact Hcs1.
  - exact Hcs2.
  - split; [exact Hev|].
    eapply Forall_impl; [exact Hrows|].
    intros [[j l] r] (k & Hk & Hj & Hlook & Hneq). simpl in *.
    exists k. repeat split; [exact Hk|lia|exact Hlook|exact Hneq].
Qed.





(** ** Mismatch cap *)



Lemma not_skipped_query1 : "query1" ∉ SKIP_QUERIES.
Proof. rewrite skip_queries_spec. intros [H|H]; discriminate. Qed.



(** ** A cap of zero *)



(** ** Row counts *)

Lemma collect_trace_no_count_report use_iterator n :
  Forall (fun ev => is_count_report ev = false) (collect_trace use_iterator n).
Proof. destruct use_iterator; repeat constructor. Qed.

Lemma final_report_no_count_report errors max_errors :
  is_count_report (final_report errors max_errors) = false.
Proof.
  unfold final_report.
  destruct (errors =? max_errors); [|destruct (errors =? 0)]; reflexivity.
Qed.

(** C5: for a query off the skip list whose two sides have different row
    counts, the verdict is failed and the trace holds the two loads and the
    count report only: no row is pulled and none compared.  The count report
    is none of the reports of differing content, and a comparison of the
    same query over sides of equal counts never issues a count report. *)
Theorem C5_count_mismatch_fails_immediately
    (spark_session : Storage) (input1 input2 input1_format input2_format : string)
    (ignore_ordering use_iterator : bool) (query_name : string)
    (max_errors : Z) (epsilon : F64.float) (df1 df2 : DataFrame) :
  query_name ∉ SKIP_QUERIES ->
  spark_session input1_format input1 = Some df1 ->
  spark_session input2_format input2 = Some df2 ->
  count df1 <> count df2 ->
  let out := run (compare_results spark_session input1 input2 input1_format
                    input2_format ignore_ordering query_name use_iterator
                    max_errors epsilon) in
  out = ([EvLoad input1_format input1; EvLoad input2_format input2;
          EvCountMismatch (count df1) (count df2)], inr false)
  /\ Forall (fun ev => is_row_event ev = false) (fst out)
  /\ Forall (fun ev => is_content_report ev = false) (fst out)
  /\ Exists (fun ev => is_count_report ev = true) (fst out)
  /\ (forall (other : Storage) (df1' df2' : DataFrame),
        other input1_format input1 = Some df1' ->
        other input2_format input2 = Some df2' ->
        count df1' = count df2' ->
        tolerance_ok epsilon ->
        Forall (fun ev => is_count_report ev = false)
          (fst (run (compare_results other input1 input2 input1_format
                       input2_format ignore_ordering query_name use_iterator
                       max_errors epsilon)))).
Proof.
  intros Hskip H1 H2 Hne out.
  assert (Hout : out = ([EvLoad input1_format input1; EvLoad input2_format input2;
                         EvCountMismatch (count df1) (count df2)], inr false)).
  { unfold out, run, compare_results.
    rewrite bool_decide_eq_false_2 by exact Hskip.
    rewrite (bind_ok _ _ _ _ _ (load_some _ _ _ _ _ H1)).
    rewrite (bind_ok _ _ _ _ _ (load_some _ _ _ _ _ H2)).
    apply Z.eqb_neq in Hne. rewrite Hne. reflexivity. }
  rewrite Hout. simpl. split; [reflexivity|].
  split; [|split; [|split]].
  - repeat constructor.
  - repeat constructor.
  - do 2 apply Exists_cons_tl. apply Exists_cons_hd. reflexivity.
  - intros other df1' df2' H1' H2' Heq Heps.
    destruct (compare_results_equal_counts other input1 input2
                input1_format input2_format ignore_ordering use_iterator
                query_name max_errors epsilon df1' df2' Hskip H1' H2' Heq Heps)
      as (n & t' & Hrun & _ & _ & _ & _ & _ & _ & Hev & _).
    cbv zeta in Hrun. rewrite Hrun. simpl fst.
    do 2 (apply Forall_cons; split; [reflexivity|]).
    repeat (apply Forall_app; split);
      auto using collect_trace_no_count_report.
    + eapply Forall_impl; [exact Hev|].
      intros ev Hx; destruct ev; try discriminate Hx; reflexivity.
    + repeat constructor. apply final_report_no_count_report.
Qed.

Lemma C5_count_mismatch_witness :
  run (compare_results (two_sided (long_frame (seqZ 1 10)) (long_frame (seqZ 1 9)))
         "left" "right" "parquet" "parquet" false "query1" false 10 eps_default)
  = ([EvLoad "parquet" "left"; EvLoad "parquet" "right"; EvCountMismatch 10 9],
     inr false).
Proof.
  apply (C5_count_mismatch_fails_immediately
           (two_sided (long_frame (seqZ 1 10)) (long_frame (seqZ 1 9)))
           "left" "right" "parquet" "parquet" false false "query1" 10 eps_default
           (long_frame (seqZ 1 10)) (long_frame (seqZ 1 9)));
    [exact not_skipped_query1 | reflexivity | reflexivity | vm_compute; discriminate].
Defined.

(** ** Row comparator *)

Lemma zip_firstn row1 row2 :
  zip row1 row2
  = zip (firstn (Nat.min (length row1) (length row2)) row1)
        (firstn (Nat.min (length row1) (length row2)) row2).
Proof.
  revert row2. induction row1 as [|x row1 IH]; intros [|y row2]; simpl; try reflexivity.
  f_equal. apply IH.
Qed.

Lemma zip_length row1 row2 :
  length (zip row1 row2) = Nat.min (length row1) (length row2).
Proof.
  revert row2. induction row1 as [|x row1 IH]; intros [|y row2]; simpl; auto.
Qed.

Lemma zip_app_l row1 row2 extra :
  length row1 = length row2 -> zip (row1 ++ extra) row2 = zip row1 row2.
Proof.
  revert row2. induction row1 as [|x row1 IH]; intros [|y row2] H;
    simpl in *; try discriminate.
  - destruct extra; reflexivity.
  - f_equal. apply IH. congruence.
Qed.

Lemma zip_app_r row1 row2 extra :
  length row1 = length row2 -> zip row1 (row2 ++ extra) = zip row1 row2.
Proof.
  revert row2. induction row1 as [|x row1 IH]; intros [|y row2] H;
    simpl in *; try discriminate.
  - reflexivity.
  - f_equal. apply IH. congruence.
Qed.

Lemma zip_nil_r row : zip row [] = [].
Proof. destruct row; reflexivity. Qed.

(** C10: [rowEqual] compares the value pairs up to the length of the
    shorter row only.  Its result is that of the two rows cut to the shorter
    length; only that many pairs are compared; rows that agree stay equal
    when either one is extended by further values; and any row equals the
    empty row.  A difference in arity alone is never a mismatch. *)
Theorem C10_rowEqual_zip_truncation
    (row1 row2 extra : Row) (epsilon : F64.float) :
  length row1 = length row2 ->
  rowEqual row1 row2 epsilon = inr true ->
  rowEqual (row1 ++ extra) row2 epsilon = inr true
  /\ rowEqual row1 (row2 ++ extra) epsilon = inr true
  /\ rowEqual extra [] epsilon = inr true
  /\ rowEqual [] extra epsilon = inr true
  /\ (forall r1 r2 : Row,
        rowEqual r1 r2 epsilon
        = rowEqual (firstn (Nat.min (length r1) (length r2)) r1)
                   (firstn (Nat.min (length r1) (length r2)) r2) epsilon
        /\ length (zip r1 r2) = Nat.min (length r1) (length r2)).
Proof.
  intros Hlen Heq. unfold rowEqual in *.
  rewrite zip_app_l, zip_app_r by exact Hlen. rewrite zip_nil_r.
  repeat split; try assumption.
  - rewrite <- zip_firstn. reflexivity.
  - apply zip_length.
Qed.

Lemma C10_rowEqual_witness :
  rowEqual ([VInt 1; VText "a"] ++ [VInt 9]) [VInt 1; VText "a"] eps_default = inr true
  /\ rowEqual [VInt 1; VText "a"] ([VInt 1; VText "a"] ++ [VInt 9]) eps_default = inr true
  /\ rowEqual [VInt 9] [] eps_default = inr true.
Proof.
  destruct (C10_rowEqual_zip_truncation [VInt 1; VText "a"] [VInt 1; VText "a"]
              [VInt 9] eps_default) as (H1 & H2 & H3 & _).
  - reflexivity.
  - vm_compute. reflexivity.
  - exact (conj H1 (conj H2 H3)).
Defined.

(** ** Sort key *)

Lemma float_type_name t :
  typeName t ∈ [typeName FloatType; typeName DoubleType]
  <-> t = FloatType \/ t = DoubleType.
Proof.
  rewrite !elem_of_cons, elem_of_nil.
  destruct t; simpl; split; intros H; try tauto;
    repeat (destruct H as [H|H]); try discriminate; try contradiction.
Qed.

(** C3, as stated, fails on a decimal column: it is part of the leading
    group of the key, so a frame with a decimal column before a [long] one is
    sorted by the decimal first, not by the [long] as the claimed key would. *)
Lemma C3_decimal_counterexample :
  sort_key (schema price_frame) = ["price"; "qty"]
  /\ claimed_sort_key (schema price_frame) = ["qty"; "price"]
  /\ sort_key (schema price_frame) <> claimed_sort_key (schema price_frame)
  /\ rows (prepare price_frame "query1" true)
     = [ [VDecimal 100 (-2); VInt 2]; [VDecimal 200 (-2); VInt 1] ]
  /\ rows (sort (claimed_sort_key (schema price_frame)) price_frame)
     = [ [VDecimal 200 (-2); VInt 1]; [VDecimal 100 (-2); VInt 2] ].
Proof.
  vm_compute. repeat split; try reflexivity. intros H. discriminate H.
Qed.

(** C3 (amended): when ordering is to be ignored, the rows of the frame
    (after the skipped columns are dropped) are sorted by a composite key:
    all columns whose type is neither [float] nor [double], in schema order,
    followed by all [float] and [double] columns, in schema order.  Decimal
    columns belong to the leading group. *)
Theorem C3_sort_key_floats_last (df : DataFrame) (query_name : string) :
  let df' := match SKIP_COLUMNS !! query_name with
             | Some cols => drop cols df
             | None => df
             end in
  prepare df query_name true = sort (sort_key (schema df')) df'
  /\ exists lead trail : list StructField,
       sort_key (schema df') = (name <$> lead) ++ (name <$> trail)
       /\ lead `sublist_of` schema df'
       /\ trail `sublist_of` schema df'
       /\ lead ++ trail ≡ₚ schema df'
       /\ Forall (fun f => dataType f <> FloatType /\ dataType f <> DoubleType) lead
       /\ Forall (fun f => dataType f = FloatType \/ dataType f = DoubleType) trail
       /\ (forall f p s, f ∈ schema df' -> dataType f = DecimalType p s -> f ∈ lead).
Proof.
  intros df'. split; [reflexivity|].
  exists (filter (fun field => typeName (dataType field)
                     ∉ [typeName FloatType; typeName DoubleType]) (schema df')),
         (filter (fun field => typeName (dataType field)
                     ∈ [typeName FloatType; typeName DoubleType]) (schema df')).
  split; [reflexivity|].
  split; [apply sublist_filter|]. split; [apply sublist_filter|].
  split.
  { rewrite Permutation_app_comm.
    apply (filter_app_complement
             (fun field : StructField => typeName (dataType field)
                ∈ [typeName FloatType; typeName DoubleType])). }
  split.
  { apply Forall_forall. intros f Hf. apply list_elem_of_filter in Hf as [Hf _].
    rewrite float_type_name in Hf. tauto. }
  split.
  { apply Forall_forall. intros f Hf. apply list_elem_of_filter in Hf as [Hf _].
    rewrite float_type_name in Hf. exact Hf. }
  intros f p s Hin Hdec. apply list_elem_of_filter. split; [|exact Hin].
  rewrite float_type_name, Hdec. intros [H|H]; discriminate.
Qed.

(** ** Values of different types *)

Lemma py_eq_mixed x y :
  type_of x <> type_of y ->
  py_eq x y = match number_of x, number_of y with
              | Some p, Some q => Qeq_bool p q
              | _, _ => false
              end.
Proof.
  intros H. destruct x, y; simpl in *; try reflexivity; try congruence.
  all: try (destruct (F64.to_Q _); reflexivity).
Qed.

Lemma compare_mixed x y epsilon :
  type_of x <> type_of y -> compare x y epsilon = inr (py_eq x y).
Proof.
  intros H. destruct x, y; simpl in *; try reflexivity; congruence.
Qed.

(** C2, as stated, fails: an Integer and a FloatingPoint of the same value
    compare equal, and so do a Boolean and the Integer it stands for. *)
Lemma C2_mixed_type_counterexample :
  type_of (VInt 1) <> type_of (VFloat f_1_0)
  /\ compare (VInt 1) (VFloat f_1_0) eps_default = inr true
  /\ type_of (VBool true) <> type_of (VInt 1)
  /\ compare (VBool true) (VInt 1) eps_default = inr true.
Proof.
  vm_compute. repeat split; try reflexivity; intros H; discriminate H.
Qed.

(** C2 (amended): for values of different scalar types [compare] applies no
    tolerance and returns what [==] returns: true exactly when both values
    are numbers (Boolean, Integer, Decimal or a finite FloatingPoint) of the
    same exact value, and false whenever one of them is Text, Null, NaN or
    an infinity. *)
Theorem C2_mixed_types_compare_exactly
    (expected actual : Value) (epsilon : F64.float) :
  type_of expected <> type_of actual ->
  compare expected actual epsilon = inr (py_eq expected actual)
  /\ (compare expected actual epsilon = inr true
      <-> exists p q : Q, number_of expected = Some p
                          /\ number_of actual = Some q /\ Qeq p q)
  /\ (number_of expected = None \/ number_of actual = None ->
      compare expected actual epsilon = inr false).
Proof.
  intros H. rewrite (compare_mixed _ _ _ H), (py_eq_mixed _ _ H).
  split; [reflexivity|]. split.
  - destruct (number_of expected) as [p|], (number_of actual) as [q|]; split.
    + intros Heq. exists p, q. repeat split. apply Qeq_bool_iff. congruence.
    + intros (p' & q' & Hp & Hq & Heq). injection Hp as <-. injection Hq as <-.
      f_equal. apply Qeq_bool_iff. exact Heq.
    + discriminate.
    + intros (p' & q' & Hp & Hq & Heq). discriminate.
    + discriminate.
    + intros (p' & q' & Hp & Hq & Heq). discriminate.
    + discriminate.
    + intros (p' & q' & Hp & Hq & Heq). discriminate.
  - intros [-> | ->]; [reflexivity|].
    destruct (number_of expected); reflexivity.
Qed.

Lemma C2_mixed_types_witness :
  compare (VInt 1) (VFloat f_1_0000099999) eps_default = inr false
  /\ compare (VDecimal 15 (-1)) (VFloat (F64.of_decimal 15 (-1))) eps_default = inr true
  /\ compare (VText "1") (VInt 1) eps_default = inr false.
Proof.
  split; [|split].
  - destruct (C2_mixed_types_compare_exactly (VInt 1) (VFloat f_1_0000099999)
                eps_default) as (H & _ & _).
    + vm_compute. discriminate.
    + rewrite H. vm_compute. reflexivity.
  - apply (C2_mixed_types_compare_exactly (VDecimal 15 (-1))
             (VFloat (F64.of_decimal 15 (-1))) eps_default).
    + vm_compute. discriminate.
    + eexists _, _. split; [reflexivity|]. split; [vm_compute; reflexivity|].
      vm_compute. reflexivity.
  - apply (C2_mixed_types_compare_exactly (VText "1") (VInt 1) eps_default).
    + vm_compute. discriminate.
    + left. reflexivity.
Defined.

(** ** NaN *)





(** ** Status reconciler *)

Lemma existsb_is_str s items :
  existsb (is_str s) items = true <-> JStr s ∈ items.
Proof.
  rewrite existsb_exists. split.
  - intros (j & Hin & Hj). destruct j; try discriminate. simpl in Hj.
    apply String.eqb_eq in Hj. subst. apply list_elem_of_In. exact Hin.
  - intros Hin. exists (JStr s). split; [apply list_elem_of_In; exact Hin|].
    simpl. apply String.eqb_refl.
Qed.

Lemma completed_spec status :
  completed status = true
  <-> JStr "Completed" ∈ status \/ JStr "CompletedWithTaskFailures" ∈ status.
Proof.
  unfold completed. rewrite orb_true_iff, !existsb_is_str. reflexivity.
Qed.

Lemma dict_get_set k v fields : dict_get k (dict_set k v fields) = Some v.
Proof.
  induction fields as [|[k' v'] rest IH]; simpl.
  - rewrite String.eqb_refl. reflexivity.
  - destruct (String.eqb k' k) eqn:E; simpl.
    + rewrite String.eqb_refl. reflexivity.
    + rewrite E. exact IH.
Qed.

Lemma dict_get_set_ne k k' v fields :
  k <> k' -> dict_get k' (dict_set k v fields) = dict_get k' fields.
Proof.
  intros Hne. induction fields as [|[k0 v0] rest IH]; simpl.
  - apply String.eqb_neq in Hne. rewrite Hne. reflexivity.
  - destruct (String.eqb k0 k) eqn:E; simpl.
    + apply String.eqb_eq in E. subst k0.
      apply String.eqb_neq in Hne. rewrite Hne. reflexivity.
    + rewrite IH. reflexivity.
Qed.

Lemma validation_status_run fields query_name unmatch_queries status :
  (query_name ∈ unmatch_queries ->
   dict_get "queryStatus" fields = Some (JArr status)) ->
  validation_status (JObj fields) query_name unmatch_queries
  = inr (JObj (dict_set "queryValidationStatus"
                 (JArr [JStr (new_status unmatch_queries query_name status)])
                 fields)).
Proof.
  intros Hst. unfold validation_status, new_status.
  destruct (bool_decide (query_name ∈ unmatch_queries)) eqn:E; [|reflexivity].
  apply bool_decide_eq_true_1 in E. specialize (Hst E).
  unfold getitem. rewrite Hst. unfold mbind, result_bind. simpl py_in at 1.
  unfold completed.
  destruct (existsb (is_str "Completed") status); simpl; [reflexivity|].
  destruct (existsb (is_str "CompletedWithTaskFailures") status); reflexivity.
Qed.

Lemma update_one_run fs prefix unmatch_queries query_name files t
      filename fields status :
  glob_glob fs (summary_wildcard prefix query_name) = [filename] ->
  files !! filename = Some (JObj fields) ->
  (query_name ∈ unmatch_queries ->
   dict_get "queryStatus" fields = Some (JArr status)) ->
  update_one fs prefix unmatch_queries query_name files t
  = (t, inr (<[filename :=
                 JObj (dict_set "queryValidationStatus"
                         (JArr [JStr (new_status unmatch_queries query_name status)])
                         fields)]> files)).
Proof.
  intros Hglob Hfile Hst. unfold update_one.
  change (prefix ++ "/*" ++ query_name ++ "-*.json")%string
    with (summary_wildcard prefix query_name).
  rewrite Hglob. simpl. rewrite Hfile.
  rewrite (validation_status_run _ _ _ _ Hst). reflexivity.
Qed.

Lemma update_loop_run fs prefix unmatch_queries
      (file_of : string -> string)
      (fields_of : string -> list (string * json))
      (status_of : string -> list json) :
  forall (queries : list string) (files : gmap string json) t,
    (forall q, q ∈ queries ->
       glob_glob fs (summary_wildcard prefix q) = [file_of q]
       /\ files !! file_of q = Some (JObj (fields_of q))) ->
    (forall q, q ∈ queries -> q ∈ unmatch_queries ->
       dict_get "queryStatus" (fields_of q) = Some (JArr (status_of q))) ->
    NoDup (file_of <$> queries) ->
    exists files' : gmap string json,
      update_loop fs prefix unmatch_queries queries files t = (t, inr files')
      /\ (forall q, q ∈ queries ->
            files' !! file_of q
            = Some (JObj (dict_set "queryValidationStatus"
                            (JArr [JStr (new_status unmatch_queries q (status_of q))])
                            (fields_of q))))
      /\ (forall f, f ∉ file_of <$> queries -> files' !! f = files !! f).
Proof.
  induction queries as [|q rest IH]; intros files t Hfiles Hstatus Hnodup.
  - exists files. split; [reflexivity|]. split; [|reflexivity].
    intros q Hq. apply elem_of_nil in Hq. contradiction.
  - rewrite fmap_cons in Hnodup. apply NoDup_cons in Hnodup as [Hfresh Hnodup].
    destruct (Hfiles q ltac:(left)) as [Hglob Hfile].
    simpl update_loop.
    rewrite (bind_ok _ _ _ _ _
               (update_one_run fs prefix unmatch_queries q files t _ _
                  (status_of q) Hglob Hfile (Hstatus q ltac:(left)))).
    destruct (IH (<[file_of q :=
                     JObj (dict_set "queryValidationStatus"
                             (JArr [JStr (new_status unmatch_queries q (status_of q))])
                             (fields_of q))]> files) t)
      as (files' & Hrun & Hdone & Hframe).
    + intros q' Hq'. destruct (Hfiles q' ltac:(right; exact Hq')) as [Hg Hf].
      split; [exact Hg|]. rewrite lookup_insert_ne; [exact Hf|].
      intros Heq. apply Hfresh. rewrite Heq.
      apply list_elem_of_fmap. exists q'. split; [reflexivity|exact Hq'].
    + intros q' Hq'. apply Hstatus. right. exact Hq'.
    + exact Hnodup.
    + exists files'. split; [exact Hrun|]. split.
      * intros q' Hq'. apply elem_of_cons in Hq' as [->|Hq'].
        -- rewrite (Hframe _ Hfresh). apply lookup_insert_eq.
        -- apply Hdone. exact Hq'.
      * intros f Hf. rewrite fmap_cons in Hf. apply not_elem_of_cons in Hf as [Hne Hf].
        rewrite (Hframe _ Hf). apply lookup_insert_ne. congruence.
Qed.

(** C7: in a folder that holds exactly one summary file per query of the
    suite (an object, distinct files for distinct queries, with a
    [queryStatus] array for the queries that failed validation), the
    reconciler succeeds and leaves every query's file with its
    [queryValidationStatus] rewritten and all else as it was: to ["Fail"]
    when the query is in the failed set and [queryStatus] holds "Completed"
    or "CompletedWithTaskFailures", to ["NotAttempted"] when it is in the
    failed set and [queryStatus] holds neither, and to ["Pass"] when it is
    not in the failed set, whatever [queryStatus] is. *)
Theorem C7_status_reconciliation
    (fs : FileSystem) (query_dict : list string) (prefix : string)
    (unmatch_queries : list string) (files : gmap string json)
    (file_of : string -> string)
    (fields_of : string -> list (string * json))
    (status_of : string -> list json) :
  path_exists fs prefix = true ->
  (forall q, q ∈ query_dict ->
     glob_glob fs (summary_wildcard prefix q) = [file_of q]
     /\ files !! file_of q = Some (JObj (fields_of q))) ->
  (forall q, q ∈ query_dict -> q ∈ unmatch_queries ->
     dict_get "queryStatus" (fields_of q) = Some (JArr (status_of q))) ->
  NoDup (file_of <$> query_dict) ->
  exists files' : gmap string json,
    run (update_summary fs query_dict prefix unmatch_queries files)
    = ([EvUpdating prefix], inr files')
    /\ forall q, q ∈ query_dict ->
         exists (summary' : json) (status' : string),
           files' !! file_of q = Some summary'
           /\ summary' = JObj (dict_set "queryValidationStatus"
                                 (JArr [JStr status']) (fields_of q))
           /\ getitem summary' "queryValidationStatus" = inr (JArr [JStr status'])
           /\ (q ∈ unmatch_queries ->
               JStr "Completed" ∈ status_of q
               \/ JStr "CompletedWithTaskFailures" ∈ status_of q ->
               status' = "Fail")
           /\ (q ∈ unmatch_queries ->
               ~ (JStr "Completed" ∈ status_of q
                  \/ JStr "CompletedWithTaskFailures" ∈ status_of q) ->
               status' = "NotAttempted")
           /\ (q ∉ unmatch_queries -> status' = "Pass").
Proof.
  intros Hexists Hfiles Hstatus Hnodup.
  destruct (update_loop_run fs prefix unmatch_queries file_of fields_of status_of
              query_dict files [EvUpdating prefix] Hfiles Hstatus Hnodup)
    as (files' & Hrun & Hdone & _).
  exists files'. split.
  - unfold run, update_summary. rewrite Hexists.
    change (negb true) with false. cbv iota.
    rewrite bind_emit. exact Hrun.
  - intros q Hq. eexists _, (new_status unmatch_queries q (status_of q)).
    split; [apply Hdone; exact Hq|]. split; [reflexivity|].
    split; [simpl; rewrite dict_get_set; reflexivity|].
    unfold new_status. split; [|split].
    + intros Hin Hc. rewrite bool_decide_eq_true_2 by exact Hin.
      apply completed_spec in Hc. rewrite Hc. reflexivity.
    + intros Hin Hc. rewrite bool_decide_eq_true_2 by exact Hin.
      rewrite <- completed_spec in Hc. apply not_true_is_false in Hc.
      rewrite Hc. reflexivity.
    + intros Hin. rewrite bool_decide_eq_false_2 by exact Hin. reflexivity.
Qed.

(** Decide a closed decidable proposition by evaluation. *)
Ltac by_evaluation := refine (bool_decide_unpack _ _); vm_compute; exact I.

Lemma C7_status_reconciliation_witness :
  exists files' : gmap string json,
    run (update_summary demo_fs ["query1"; "query2"; "query3"] "s"
           ["query1"; "query2"] demo_files)
    = ([EvUpdating "s"], inr files')
    /\ (exists s1, files' !! demo_file_of "query1" = Some s1
          /\ getitem s1 "queryValidationStatus" = inr (JArr [JStr "Fail"]))
    /\ (exists s2, files' !! demo_file_of "query2" = Some s2
          /\ getitem s2 "queryValidationStatus" = inr (JArr [JStr "NotAttempted"]))
    /\ (exists s3, files' !! demo_file_of "query3" = Some s3
          /\ getitem s3 "queryValidationStatus" = inr (JArr [JStr "Pass"])).
Proof.
  destruct (C7_status_reconciliation demo_fs ["query1"; "query2"; "query3"] "s"
              ["query1"; "query2"] demo_files demo_file_of demo_fields demo_status)
    as (files' & Hrun & Hall).
  - reflexivity.
  - intros q Hq.
    repeat (apply elem_of_cons in Hq as [->|Hq]);
      [| | | apply elem_of_nil in Hq; contradiction];
      split; vm_compute; reflexivity.
  - intros q Hq _.
    repeat (apply elem_of_cons in Hq as [->|Hq]);
      [| | | apply elem_of_nil in Hq; contradiction];
      vm_compute; reflexivity.
  - by_evaluation.
  - exists files'. split; [exact Hrun|]. split; [|split].
    + destruct (Hall "query1") as (s & st & Hf & _ & Hg & Hfail & _ & _).
      { by_evaluation. }
      exists s. split; [exact Hf|]. rewrite Hg, Hfail; [reflexivity| |].
      * by_evaluation.
      * left. apply list_elem_of_here.
    + destruct (Hall "query2") as (s & st & Hf & _ & Hg & _ & Hna & _).
      { by_evaluation. }
      exists s. split; [exact Hf|]. rewrite Hg, Hna; [reflexivity| |].
      * by_evaluation.
      * intros [H|H]; apply list_elem_of_singleton in H; discriminate H.
    + destruct (Hall "query3") as (s & st & Hf & _ & Hg & _ & _ & Hpass).
      { by_evaluation. }
      exists s. split; [exact Hf|]. rewrite Hg, Hpass; [reflexivity|].
      intros H. apply (bool_decide_pack _) in H. vm_compute in H. exact H.
Defined.

(* ===================================================================== *)
(** * Further properties of the comparators, the driver and the reconciler *)
(* ===================================================================== *)

(** ** Rounding keeps a mantissa that is not negative *)

Lemma shr_1_nonneg mrs : 0 <= shr_m mrs -> 0 <= shr_m (shr_1 mrs).
Proof.
  destruct mrs as [m r s]. simpl.
  destruct m as [|p|p]; [simpl; lia | | simpl; lia].
  destruct p; simpl; lia.
Qed.

Lemma iter_pos_invariant {A} (P : A -> Prop) (f : A -> A) :
  (forall x, P x -> P (f x)) -> forall p x, P x -> P (SpecFloat.iter_pos f p x).
Proof.
  intros Hf. induction p as [p IH|p IH|]; intros x Hx; simpl; auto.
Qed.

Lemma shr_nonneg mrs e n : 0 <= shr_m mrs -> 0 <= shr_m (fst (shr mrs e n)).
Proof.
  intros H. unfold shr. destruct n; simpl; try exact H.
  apply (iter_pos_invariant (fun r => 0 <= shr_m r)); [apply shr_1_nonneg | exact H].
Qed.

Lemma shr_record_of_loc_m m l : shr_m (shr_record_of_loc m l) = m.
Proof. destruct l as [|[]]; reflexivity. Qed.

Lemma shr_fexp_nonneg m e l :
  0 <= m -> 0 <= shr_m (fst (shr_fexp F64.prec F64.emax m e l)).
Proof.
  intros H. unfold shr_fexp. apply shr_nonneg.
  rewrite shr_record_of_loc_m. exact H.
Qed.

Lemma round_nearest_even_nonneg m l : 0 <= m -> 0 <= round_nearest_even m l.
Proof.
  intros H. unfold round_nearest_even.
  destruct l as [|[]]; try lia. destruct (Z.even m); lia.
Qed.

Lemma binary_round_aux_signed s m e l :
  0 <= m -> signed_as s (binary_round_aux F64.prec F64.emax s m e l).
Proof.
  intros H. unfold binary_round_aux.
  pose proof (shr_fexp_nonneg m e l H) as H1.
  destruct (shr_fexp F64.prec F64.emax m e l) as [mrs' e'] eqn:E1. simpl in H1.
  pose proof (shr_fexp_nonneg
                (round_nearest_even (shr_m mrs') (loc_of_shr_record mrs')) e'
                loc_Exact (round_nearest_even_nonneg _ _ H1)) as H2.
  destruct (shr_fexp F64.prec F64.emax
              (round_nearest_even (shr_m mrs') (loc_of_shr_record mrs')) e'
              loc_Exact) as [mrs'' e''] eqn:E2.
  simpl in H2. destruct (shr_m mrs'') as [|p|p]; simpl; try reflexivity.
  - destruct (e'' <=? F64.emax - F64.prec); reflexivity.
  - lia.
Qed.

Lemma binary_round_aux_abs s s' m e l :
  SFabs (binary_round_aux F64.prec F64.emax s m e l)
  = SFabs (binary_round_aux F64.prec F64.emax s' m e l).
Proof.
  unfold binary_round_aux.
  destruct (shr_fexp F64.prec F64.emax m e l) as [mrs' e'].
  destruct (shr_fexp F64.prec F64.emax _ e' loc_Exact) as [mrs'' e''].
  destruct (shr_m mrs'') as [|p|p]; simpl; try reflexivity.
  destruct (e'' <=? F64.emax - F64.prec); reflexivity.
Qed.

Lemma binary_round_abs s s' m e :
  SFabs (binary_round F64.prec F64.emax s m e)
  = SFabs (binary_round F64.prec F64.emax s' m e).
Proof.
  unfold binary_round.
  destruct (shl_align m e _) as [mz ez]. apply binary_round_aux_abs.
Qed.

Lemma binary_normalize_abs_opp m e :
  SFabs (binary_normalize F64.prec F64.emax (- m) e false)
  = SFabs (binary_normalize F64.prec F64.emax m e false).
Proof.
  destruct m as [|p|p]; simpl; [reflexivity| |]; apply binary_round_abs.
Qed.

(** ** Subtraction is antisymmetric up to the sign *)

Lemma sub_abs_swap a b : F64.fabs (F64.sub a b) = F64.fabs (F64.sub b a).
Proof.
  unfold F64.fabs, F64.sub.
  destruct a as [sa|sa| |sa ma ea], b as [sb|sb| |sb mb eb]; simpl;
    try reflexivity; try (destruct sa, sb; reflexivity).
  rewrite (Z.min_comm eb ea).
  rewrite <- binary_normalize_abs_opp. f_equal. f_equal. lia.
Qed.

(** ** The order on floats *)

Lemma SFcompare_swap a b :
  SFcompare b a = CompOpp <$> SFcompare a b.
Proof.
  destruct a as [sa|sa| |sa ma ea], b as [sb|sb| |sb mb eb]; simpl;
    try reflexivity; try (destruct sa; reflexivity);
    try (destruct sb; reflexivity); try (destruct sa, sb; reflexivity).
  destruct sa, sb; simpl; try reflexivity;
    rewrite (Z.compare_antisym ea eb);
    destruct (ea ?= eb); simpl; try reflexivity;
    rewrite (Pos.compare_cont_antisym ma mb Eq); simpl;
    rewrite ?CompOpp_involutive; reflexivity.
Qed.

Lemma eqb_swap a b : F64.eqb a b = F64.eqb b a.
Proof.
  unfold F64.eqb, SFeqb. rewrite (SFcompare_swap a b).
  destruct (SFcompare a b) as [[]|]; reflexivity.
Qed.

(** ** The value comparator is symmetric *)

Lemma isclose_swap a b epsilon : isclose a b epsilon = isclose b a epsilon.
Proof.
  unfold isclose. rewrite (eqb_swap a b), (orb_comm (F64.isinf a)).
  rewrite (sub_abs_swap b a).
  destruct (F64.ltb epsilon F64.zero); [reflexivity|].
  destruct (F64.eqb b a); [reflexivity|].
  destruct (F64.isinf b || F64.isinf a); [reflexivity|].
  f_equal. f_equal. apply orb_comm.
Qed.

Lemma Qeq_bool_swap p q : Qeq_bool p q = Qeq_bool q p.
Proof.
  destruct (Qeq_bool p q) eqn:E1, (Qeq_bool q p) eqn:E2; try reflexivity.
  - apply Qeq_bool_iff, Qeq_sym, Qeq_bool_iff in E1. congruence.
  - apply Qeq_bool_iff, Qeq_sym, Qeq_bool_iff in E2. congruence.
Qed.

Lemma py_eq_swap x y : py_eq x y = py_eq y x.
Proof.
  destruct x, y; simpl; try reflexivity;
    try apply Qeq_bool_swap; try apply eqb_swap; try apply String.eqb_sym;
    try (destruct (F64.to_Q _); [apply Qeq_bool_swap | reflexivity]);
    destruct (F64.to_Q _); reflexivity.
Qed.

(** X1: Swapping the expected and the actual value never changes the outcome
    of [compare], an exception included. *)
Theorem compare_symmetric (expected actual : Value) (epsilon : F64.float) :
  compare expected actual epsilon = compare actual expected epsilon.
Proof.
  destruct expected as [| | | ce ee | fa |], actual as [| | | ca ea | fb |];
    try (match goal with
         | |- compare ?x ?y _ = _ => exact (f_equal inr (py_eq_swap x y))
         end).
  - apply isclose_swap.
  - simpl. rewrite (andb_comm (F64.isnan fa)), (isclose_swap fa fb). reflexivity.
Qed.

(** ** Every value matches itself *)

Lemma SFcompare_refl x : F64.isnan x = false -> SFcompare x x = Some Eq.
Proof.
  destruct x as [s|s| |s m e]; simpl; try discriminate; intros _.
  - reflexivity.
  - destruct s; reflexivity.
  - destruct s; rewrite Z.compare_refl, Pos.compare_cont_refl; reflexivity.
Qed.

Lemma isclose_refl x epsilon :
  F64.isnan x = false -> tolerance_ok epsilon -> isclose x x epsilon = inr true.
Proof.
  intros Hx Heps. unfold isclose. rewrite Heps.
  unfold F64.eqb, SFeqb. rewrite (SFcompare_refl x Hx). reflexivity.
Qed.

Lemma signed_as_not_nan s x : signed_as s x -> F64.isnan x = false.
Proof. destruct x; simpl; [reflexivity..|contradiction|reflexivity]. Qed.

Lemma div_core_nonneg m1 e1 m2 e2 :
  0 <= m1 -> 0 < m2 ->
  0 <= fst (fst (SFdiv_core_binary F64.prec F64.emax m1 e1 m2 e2)).
Proof.
  intros H1 H2. unfold SFdiv_core_binary.
  set (s := e1 - e2 - _).
  set (m' := match s with Z0 => m1 | Zpos _ => Z.shiftl m1 s | Zneg _ => 0 end).
  assert (Hm : 0 <= m').
  { unfold m'. destruct s; try lia. apply Z.shiftl_nonneg. exact H1. }
  pose proof (Z_div_mod m' m2 ltac:(lia)) as Hdiv.
  destruct (Z.div_eucl m' m2) as [q r]. simpl. nia.
Qed.

Lemma of_ratio_not_nan n d : F64.isnan (F64.of_ratio n d) = false.
Proof.
  unfold F64.of_ratio. destruct n as [|p|p]; [reflexivity| |].
  - pose proof (div_core_nonneg (Zpos p) 0 (Zpos d) 0 ltac:(lia) ltac:(lia)) as H.
    destruct (SFdiv_core_binary _ _ _ _ _ _) as [[mz ez] lz]. simpl in H.
    exact (signed_as_not_nan _ _ (binary_round_aux_signed false mz ez lz H)).
  - pose proof (div_core_nonneg (Zpos p) 0 (Zpos d) 0 ltac:(lia) ltac:(lia)) as H.
    destruct (SFdiv_core_binary _ _ _ _ _ _) as [[mz ez] lz]. simpl in H.
    exact (signed_as_not_nan _ _ (binary_round_aux_signed true mz ez lz H)).
Qed.

Lemma binary_round_not_nan s m e :
  F64.isnan (binary_round F64.prec F64.emax s m e) = false.
Proof.
  unfold binary_round. destruct (shl_align m e _) as [mz ez].
  apply (signed_as_not_nan s). apply binary_round_aux_signed. lia.
Qed.

Lemma binary_normalize_not_nan m e s :
  F64.isnan (binary_normalize F64.prec F64.emax m e s) = false.
Proof.
  destruct m; simpl; [reflexivity| |]; apply binary_round_not_nan.
Qed.

(** [float(d)] of a decimal is never NaN. *)
Lemma float_of_decimal_not_nan coef exp :
  F64.isnan (float_of_decimal coef exp) = false.
Proof.
  unfold float_of_decimal, F64.of_decimal.
  destruct exp; auto using binary_normalize_not_nan, of_ratio_not_nan.
Qed.

Lemma compare_refl x epsilon :
  tolerance_ok epsilon -> compare x x epsilon = inr true.
Proof.
  intros Heps. destruct x as [|b|n|c e|f|s]; simpl.
  - reflexivity.
  - f_equal. apply Qeq_bool_iff. reflexivity.
  - f_equal. apply Qeq_bool_iff. reflexivity.
  - apply isclose_refl; [apply float_of_decimal_not_nan | exact Heps].
  - destruct (F64.isnan f) eqn:E; simpl; [reflexivity|].
    apply isclose_refl; assumption.
  - f_equal. apply String.eqb_refl.
Qed.


(** ** The verdict of the driver *)








(** ** Computations only append to the trace *)

Lemma appends_ret P {A} (a : A) : appends P (mret a : M A).
Proof. split; [constructor|]. intros t. simpl. rewrite app_nil_r. reflexivity. Qed.

Lemma appends_raise P {A} (e : exn) : appends P (raise e : M A).
Proof. split; [constructor|]. intros t. simpl. rewrite app_nil_r. reflexivity. Qed.

Lemma appends_lift P {A} (r : result A) : appends P (lift r).
Proof. split; [constructor|]. intros t. simpl. rewrite app_nil_r. reflexivity. Qed.

Lemma appends_emit (P : event -> Prop) ev : P ev -> appends P (emit ev).
Proof. intros H. split; [repeat constructor; exact H|]. intros t. reflexivity. Qed.

Lemma appends_bind P {A B} (m : M A) (k : A -> M B) :
  appends P m -> (forall a, appends P (k a)) -> appends P (m ≫= k).
Proof.
  intros [Hm1 Hm2] Hk.
  assert (Hnil : (m ≫= k) [] =
                 match snd (m []) with
                 | inl e => (fst (m []), inl e)
                 | inr a => (fst (m []) ++ fst (k a []), snd (k a []))
                 end).
  { unfold mbind, M_bind. destruct (m []) as [tm [e|a]]; simpl; [reflexivity|].
    destruct (Hk a) as [_ Hk2]. apply Hk2. }
  split.
  - rewrite Hnil. destruct (snd (m [])) as [e|a]; simpl; [exact Hm1|].
    apply Forall_app. split; [exact Hm1 | apply (Hk a)].
  - intros t. rewrite Hnil. unfold mbind, M_bind at 1. rewrite (Hm2 t).
    destruct (snd (m [])) as [e|a]; simpl; [reflexivity|].
    destruct (Hk a) as [_ Hk2]. rewrite Hk2, app_assoc. reflexivity.
Qed.

Lemma appends_weaken (P Q : event -> Prop) {A} (m : M A) :
  (forall ev, P ev -> Q ev) -> appends P m -> appends Q m.
Proof.
  intros HPQ [H1 H2]. split; [|exact H2].
  eapply Forall_impl; [exact H1 | exact HPQ].
Qed.

Lemma appends_load spark_session fmt path :
  appends not_comparing (load spark_session fmt path).
Proof.
  unfold load. apply appends_bind; [apply appends_emit; exact I|].
  intros _. destruct (spark_session fmt path);
    [apply appends_ret | apply appends_raise].
Qed.

Lemma appends_collect_results df query_name ignore_ordering use_iterator :
  appends not_comparing
    (collect_results df query_name ignore_ordering use_iterator).
Proof.
  unfold collect_results. destruct use_iterator; [apply appends_ret|].
  apply appends_bind; [apply appends_emit; exact I|]. intros _.
  apply appends_bind; [apply appends_emit; exact I|]. intros _.
  apply appends_ret.
Qed.

Lemma appends_next side it : appends not_comparing (next side it).
Proof.
  unfold next. apply appends_bind; [apply appends_emit; exact I|].
  intros _. destruct it; [apply appends_raise | apply appends_ret].
Qed.

Lemma appends_while_rows epsilon count1 max_errors :
  forall result1 result2 i errors,
    appends not_comparing
      (while_rows epsilon count1 max_errors result1 result2 i errors).
Proof.
  induction result1 as [|lhs result1 IH]; intros result2 i errors; simpl;
    (destruct ((i <? count1) && (errors <? max_errors)); [|apply appends_ret]).
  - apply appends_bind; [apply appends_emit; exact I|]. intros _.
    apply appends_raise.
  - apply appends_bind; [apply appends_emit; exact I|]. intros _.
    apply appends_bind; [apply appends_next|]. intros [rhs result2'].
    apply appends_bind; [apply appends_lift|]. intros equal.
    apply appends_bind; [|intros errors'; apply IH].
    destruct (negb equal); [|apply appends_ret].
    apply appends_bind; [apply appends_emit; exact I|]. intros _.
    apply appends_ret.
Qed.

Lemma appends_compare_results
    spark_session input1 input2 input1_format input2_format ignore_ordering
    query_name use_iterator max_errors epsilon :
  appends not_comparing
    (compare_results spark_session input1 input2 input1_format input2_format
       ignore_ordering query_name use_iterator max_errors epsilon).
Proof.
  unfold compare_results.
  destruct (bool_decide (query_name ∈ SKIP_QUERIES)); [apply appends_ret|].
  apply appends_bind; [apply appends_load|]. intros df1.
  apply appends_bind; [apply appends_load|]. intros df2.
  destruct (count df1 =? count df2).
  - apply appends_bind; [apply appends_collect_results|]. intros result1.
    apply appends_bind; [apply appends_collect_results|]. intros result2.
    apply appends_bind; [apply appends_while_rows|]. intros [i errors].
    apply appends_bind; [apply appends_emit; exact I|]. intros _.
    destruct (errors =? max_errors); [|destruct (errors =? 0)];
      (apply appends_bind; [apply appends_emit; exact I|]; intros _;
       apply appends_ret).
  - apply appends_bind; [apply appends_emit; exact I|]. intros _.
    apply appends_ret.
Qed.

(** ** Suite iterator *)

Lemma compared_app t1 t2 : compared (t1 ++ t2) = compared t1 ++ compared t2.
Proof. apply omap_app. Qed.

Lemma compared_not_comparing t : Forall not_comparing t -> compared t = [].
Proof.
  induction 1 as [|ev t Hev _ IH]; [reflexivity|].
  destruct ev; simpl in *; try exact IH. contradiction.
Qed.

Lemma compare_results_from spark_session input1 input2 input1_format
      input2_format ignore_ordering query_name use_iterator max_errors epsilon t :
  exists tq,
    compare_results spark_session input1 input2 input1_format input2_format
      ignore_ordering query_name use_iterator max_errors epsilon t
    = (t ++ tq,
       snd (run (compare_results spark_session input1 input2 input1_format
                   input2_format ignore_ordering query_name use_iterator
                   max_errors epsilon)))
    /\ compared tq = [].
Proof.
  destruct (appends_compare_results spark_session input1 input2 input1_format
              input2_format ignore_ordering query_name use_iterator max_errors
              epsilon) as [H1 H2].
  eexists. split; [apply H2|]. apply compared_not_comparing. exact H1.
Qed.

Section Suite.

Variable spark_session : Storage.
Variables input1 input2 input1_format input2_format : string.
Variables ignore_ordering use_iterator : bool.
Variable max_errors : Z.
Variable epsilon : F64.float.

Local Abbreviation outcome :=
  (query_outcome spark_session input1 input2 input1_format input2_format
     ignore_ordering use_iterator max_errors epsilon).

Local Abbreviation loop :=
  (iterate_loop spark_session input1 input2 input1_format input2_format
     ignore_ordering use_iterator max_errors epsilon).

Lemma iterate_loop_step query_name rest unmatch_queries t :
  exists tq,
    compared tq = [query_name]
    /\ loop (query_name :: rest) unmatch_queries t
       = match outcome query_name with
         | inl e => (t ++ tq, inl e)
         | inr result_equal =>
             loop rest (if negb result_equal
                        then unmatch_queries ++ [query_name]
                        else unmatch_queries) (t ++ tq)
         end.
Proof.
  unfold query_outcome. simpl iterate_loop.
  destruct (compare_results_from spark_session
              (input1 ++ "/" ++ query_name)%string
              (input2 ++ "/" ++ query_name)%string
              input1_format input2_format ignore_ordering query_name
              use_iterator max_errors epsilon (t ++ [EvComparing query_name]))
    as (tq & Hrun & Hcmp).
  exists ([EvComparing query_name] ++ tq). split.
  - rewrite compared_app, Hcmp. reflexivity.
  - rewrite bind_emit. unfold mbind, M_bind at 1. rewrite Hrun.
    rewrite <- app_assoc.
    destruct (snd (run _)) as [e|b]; reflexivity.
Qed.

Lemma iterate_loop_all_return :
  forall queries unmatch_queries t,
    (forall q, q ∈ queries -> exists b, outcome q = inr b) ->
    exists t',
      loop queries unmatch_queries t
      = (t ++ t',
         inr (unmatch_queries
              ++ List.filter (fun q => is_unmatched (outcome q)) queries))
      /\ compared t' = queries.
Proof.
  induction queries as [|q rest IH]; intros unmatch_queries t Hall.
  - exists []. simpl. rewrite !app_nil_r. split; reflexivity.
  - destruct (iterate_loop_step q rest unmatch_queries t) as (tq & Hcmp & Hstep).
    destruct (Hall q ltac:(left)) as [b Hb]. rewrite Hb in Hstep.
    destruct (IH (if negb b then unmatch_queries ++ [q] else unmatch_queries)
                (t ++ tq)) as (t' & Hrun & Hcmp').
    { intros q' Hq'. apply Hall. right. exact Hq'. }
    exists (tq ++ t'). split.
    + rewrite Hstep, Hrun, <- app_assoc. f_equal. f_equal.
      simpl List.filter. rewrite Hb. destruct b; simpl; [reflexivity|].
      rewrite <- app_assoc. reflexivity.
    + rewrite compared_app, Hcmp, Hcmp'. reflexivity.
Qed.

Lemma iterate_loop_raises :
  forall before unmatch_queries t q after e,
    (forall q', q' ∈ before -> exists b, outcome q' = inr b) ->
    outcome q = inl e ->
    exists t',
      loop (before ++ q :: after) unmatch_queries t = (t ++ t', inl e)
      /\ compared t' = before ++ [q].
Proof.
  induction before as [|q0 before IH]; intros unmatch_queries t q after e Hall Hq.
  - destruct (iterate_loop_step q after unmatch_queries t) as (tq & Hcmp & Hstep).
    rewrite Hq in Hstep. exists tq. split; [exact Hstep | exact Hcmp].
  - destruct (iterate_loop_step q0 (before ++ q :: after) unmatch_queries t)
      as (tq & Hcmp & Hstep).
    destruct (Hall q0 ltac:(left)) as [b Hb]. rewrite Hb in Hstep.
    destruct (IH (if negb b then unmatch_queries ++ [q0] else unmatch_queries)
                (t ++ tq) q after e) as (t' & Hrun & Hcmp').
    { intros q' Hq'. apply Hall. right. exact Hq'. }
    { exact Hq. }
    exists (tq ++ t'). split.
    + simpl app. rewrite Hstep, Hrun, <- app_assoc. reflexivity.
    + rewrite compared_app, Hcmp, Hcmp'. reflexivity.
Qed.

End Suite.

Lemma skipped_query_outcome spark_session input1 input2 input1_format
      input2_format ignore_ordering use_iterator max_errors epsilon q :
  q ∈ SKIP_QUERIES ->
  query_outcome spark_session input1 input2 input1_format input2_format
    ignore_ordering use_iterator max_errors epsilon q = inr true.
Proof.
  intros H. unfold query_outcome, run, compare_results.
  rewrite bool_decide_eq_true_2 by exact H. reflexivity.
Qed.

(** X12: When the comparison of every query of the suite returns, the suite
    iterator compares the queries in suite order, each once, and returns
    exactly those whose verdict is failed, in suite order; a query on the
    skip list is never among them. *)
Theorem iterate_queries_returns_the_failed_queries
    (spark_session : Storage) (input1 input2 input1_format input2_format : string)
    (ignore_ordering use_iterator : bool) (query_dict : list string)
    (max_errors : Z) (epsilon : F64.float) :
  (forall q, q ∈ query_dict ->
     exists b, query_outcome spark_session input1 input2 input1_format
                 input2_format ignore_ordering use_iterator max_errors epsilon q
               = inr b) ->
  exists (t : list event) (unmatch_queries : list string),
    run (iterate_queries spark_session input1 input2 input1_format input2_format
           ignore_ordering query_dict use_iterator max_errors epsilon)
    = (t, inr unmatch_queries)
    /\ compared t = query_dict
    /\ unmatch_queries
       = List.filter
           (fun q => is_unmatched
                       (query_outcome spark_session input1 input2 input1_format
                          input2_format ignore_ordering use_iterator max_errors
                          epsilon q))
           query_dict
    /\ (forall q, q ∈ unmatch_queries ->
          q ∈ query_dict /\ (q ∉ SKIP_QUERIES)
          /\ query_outcome spark_session input1 input2 input1_format
               input2_format ignore_ordering use_iterator max_errors epsilon q
             = inr false).
Proof.
  intros Hall.
  destruct (iterate_loop_all_return spark_session input1 input2 input1_format
              input2_format ignore_ordering use_iterator max_errors epsilon
              query_dict [] [] Hall) as (t' & Hrun & Hcmp).
  simpl in Hrun.
  set (failed := List.filter _ query_dict) in *.
  exists (t' ++ if negb (length failed =? 0)%nat then [EvUnmatch failed] else []),
         failed.
  split; [|split; [|split]].
  - unfold run, iterate_queries. rewrite (bind_ok _ _ _ _ _ Hrun).
    destruct (negb (length failed =? 0)%nat).
    + rewrite bind_emit. reflexivity.
    + unfold mret, M_ret. rewrite app_nil_r. reflexivity.
  - rewrite compared_app, Hcmp.
    destruct (negb (length failed =? 0)%nat); simpl; apply app_nil_r.
  - reflexivity.
  - intros q Hq. apply list_elem_of_In, filter_In in Hq as [Hin Hq].
    apply list_elem_of_In in Hin. split; [exact Hin|].
    unfold is_unmatched in Hq.
    destruct (query_outcome _ _ _ _ _ _ _ _ _ q) as [e|[]] eqn:E;
      try discriminate Hq.
    split; [|reflexivity]. intros Hskip.
    rewrite skipped_query_outcome in E by exact Hskip. discriminate E.
Qed.

(** X13: An exception in the comparison of one query ends the whole suite: the
    iterator raises that exception, the queries after it are never
    compared, and no list of failed queries is returned. *)
Theorem iterate_queries_stops_at_the_first_exception
    (spark_session : Storage) (input1 input2 input1_format input2_format : string)
    (ignore_ordering use_iterator : bool) (before after : list string)
    (q : string) (e : exn) (max_errors : Z) (epsilon : F64.float) :
  (forall q', q' ∈ before ->
     exists b, query_outcome spark_session input1 input2 input1_format
                 input2_format ignore_ordering use_iterator max_errors epsilon q'
               = inr b) ->
  query_outcome spark_session input1 input2 input1_format input2_format
    ignore_ordering use_iterator max_errors epsilon q = inl e ->
  exists t : list event,
    run (iterate_queries spark_session input1 input2 input1_format input2_format
           ignore_ordering (before ++ q :: after) use_iterator max_errors epsilon)
    = (t, inl e)
    /\ compared t = before ++ [q].
Proof.
  intros Hall Hq.
  destruct (iterate_loop_raises spark_session input1 input2 input1_format
              input2_format ignore_ordering use_iterator max_errors epsilon
              before [] [] q after e Hall Hq) as (t' & Hrun & Hcmp).
  exists t'. split; [|exact Hcmp].
  unfold run, iterate_queries. rewrite (bind_raise _ _ _ _ _ Hrun). reflexivity.
Qed.

Lemma iterate_queries_returns_the_failed_queries_witness :
  snd (run (iterate_queries suite_storage "l" "r" "parquet" "parquet" false
              ["query1"; "query15_part1"; "query2"] true 10 eps_default))
  = inr ["query2"].
Proof.
  destruct (iterate_queries_returns_the_failed_queries suite_storage "l" "r"
              "parquet" "parquet" false true ["query1"; "query15_part1"; "query2"]
              10 eps_default) as (t & failed & Hrun & _ & Hfailed & _).
  - intros q Hq.
    repeat (apply elem_of_cons in Hq as [->|Hq]);
      [| | | apply elem_of_nil in Hq; contradiction];
      eexists; vm_compute; reflexivity.
  - rewrite Hrun, Hfailed. vm_compute. reflexivity.
Defined.

Lemma iterate_queries_stops_witness :
  exists t,
    run (iterate_queries suite_storage "l" "r" "parquet" "parquet" false
           (["query1"] ++ "query3" :: ["query2"]) true 10 eps_default)
    = (t, inl (PathNotFound "l/query3"))
    /\ compared t = ["query1"; "query3"].
Proof.
  apply (iterate_queries_stops_at_the_first_exception suite_storage "l" "r"
           "parquet" "parquet" false true ["query1"] ["query2"] "query3"
           (PathNotFound "l/query3") 10 eps_default).
  - intros q Hq. apply list_elem_of_singleton in Hq. subst q.
    eexists. vm_compute. reflexivity.
  - vm_compute. reflexivity.
Defined.




(** ** Row comparator, pair by pair *)

Lemma compare_all_true ps epsilon :
  tolerance_ok epsilon ->
  (exists bs, compare_all ps epsilon = inr bs /\ all bs = true)
  <-> Forall (fun p => compare (fst p) (snd p) epsilon = inr true) ps.
Proof.
  intros Heps. induction ps as [|[x y] ps IH]; simpl.
  - split; [constructor | exists []; split; reflexivity].
  - destruct (compare_total x y epsilon Heps) as [b Hb]. rewrite Hb.
    destruct (compare_all_total ps epsilon Heps) as [bs Hbs]. rewrite Hbs in *.
    rewrite Forall_cons. simpl. rewrite <- IH, Hb. split.
    + intros (bs' & Heq & Hall). injection Heq as <-. simpl in Hall.
      unfold all in Hall. simpl in Hall. apply andb_true_iff in Hall as [H1 H2].
      unfold id in H1. subst b. split; [reflexivity|].
      exists bs. split; [reflexivity | exact H2].
    + intros [H1 (bs' & Heq & Hall)]. injection H1 as ->. injection Heq as <-.
      exists (true :: bs). split; [reflexivity | exact Hall].
Qed.

Lemma zip_Forall2 (P : Value -> Value -> Prop) row1 row2 :
  length row1 = length row2 ->
  Forall (fun p => P (fst p) (snd p)) (zip row1 row2) <-> Forall2 P row1 row2.
Proof.
  revert row2. induction row1 as [|x row1 IH]; intros [|y row2] Hlen;
    simpl in *; try discriminate.
  - split; constructor.
  - rewrite Forall_cons, Forall2_cons, (IH row2) by congruence. reflexivity.
Qed.

(** X6: Under an accepted tolerance two rows of the same arity are equal
    exactly when [compare] accepts the two values at every position; and
    for rows of any arity, exactly when it accepts every pair [zip] forms. *)
Theorem rowEqual_iff_every_pair_compares_equal
    (row1 row2 : Row) (epsilon : F64.float) :
  tolerance_ok epsilon ->
  (rowEqual row1 row2 epsilon = inr true
   <-> Forall (fun p => compare (fst p) (snd p) epsilon = inr true)
         (zip row1 row2))
  /\ (length row1 = length row2 ->
      (rowEqual row1 row2 epsilon = inr true
       <-> Forall2 (fun x y => compare x y epsilon = inr true) row1 row2)).
Proof.
  intros Heps.
  assert (H : rowEqual row1 row2 epsilon = inr true
              <-> Forall (fun p => compare (fst p) (snd p) epsilon = inr true)
                    (zip row1 row2)).
  { rewrite <- (compare_all_true _ _ Heps). unfold rowEqual.
    destruct (compare_all (zip row1 row2) epsilon) as [e|bs]; split.
    - discriminate.
    - intros (bs & Hbs & _). discriminate Hbs.
    - intros Heq. exists bs. split; [reflexivity | congruence].
    - intros (bs' & Hbs & Hall). injection Hbs as <-. rewrite Hall. reflexivity. }
  split; [exact H|]. intros Hlen. rewrite H.
  exact (zip_Forall2 (fun x y => compare x y epsilon = inr true) row1 row2 Hlen).
Qed.

Lemma rowEqual_iff_witness :
  rowEqual [VInt 1; VText "a"] [VInt 1; VText "b"] eps_default <> inr true.
Proof.
  destruct (rowEqual_iff_every_pair_compares_equal
              [VInt 1; VText "a"] [VInt 1; VText "b"] eps_default) as [_ H].
  - vm_compute. reflexivity.
  - intros Heq. apply (H eq_refl) in Heq.
    apply Forall2_cons in Heq as [_ Heq]. apply Forall2_cons in Heq as [Hbad _].
    vm_compute in Hbad. discriminate Hbad.
Defined.

Lemma isclose_negative_tolerance a b epsilon :
  F64.ltb epsilon F64.zero = true -> isclose a b epsilon = inl ValueError.
Proof. intros H. unfold isclose. rewrite H. reflexivity. Qed.

Lemma compare_negative_tolerance x y epsilon :
  F64.ltb epsilon F64.zero = true ->
  if uses_tolerance x y then compare x y epsilon = inl ValueError
  else exists b, compare x y epsilon = inr b.
Proof.
  intros H. destruct x as [| | | cx ex | fx |], y as [| | | cy ey | fy |];
    simpl; eauto.
  - apply isclose_negative_tolerance. exact H.
  - destruct (F64.isnan fx && F64.isnan fy); simpl; eauto.
    apply isclose_negative_tolerance. exact H.
Qed.

(** X7: Under a negative tolerance a row comparison raises [ValueError] as soon
    as one position holds two decimals, or two floats that are not both NaN,
    wherever that position is and whatever the other columns hold: every
    pair is compared, a difference found in an earlier column does not end
    the comparison. *)
Theorem rowEqual_negative_tolerance_raises
    (row1 row2 : Row) (epsilon : F64.float) (x y : Value) :
  F64.ltb epsilon F64.zero = true ->
  (x, y) ∈ zip row1 row2 ->
  uses_tolerance x y = true ->
  rowEqual row1 row2 epsilon = inl ValueError.
Proof.
  intros Heps Hin Huse. unfold rowEqual.
  assert (H : compare_all (zip row1 row2) epsilon = inl ValueError).
  { induction (zip row1 row2) as [|[x' y'] ps IH].
    - apply elem_of_nil in Hin. contradiction.
    - simpl. pose proof (compare_negative_tolerance x' y' epsilon Heps) as Hc.
      destruct (uses_tolerance x' y') eqn:E; [rewrite Hc; reflexivity|].
      destruct Hc as [b ->].
      apply elem_of_cons in Hin as [Heq|Hin].
      + injection Heq as <- <-. congruence.
      + rewrite (IH Hin). reflexivity. }
  rewrite H. reflexivity.
Qed.

Lemma rowEqual_negative_tolerance_witness :
  rowEqual [VInt 1; VFloat f_1_0] [VInt 2; VFloat f_1_0] (F64.of_decimal (-1) 0)
  = inl ValueError.
Proof.
  apply (rowEqual_negative_tolerance_raises _ _ _ (VFloat f_1_0) (VFloat f_1_0)).
  - vm_compute. reflexivity.
  - simpl. apply elem_of_cons. right. apply elem_of_cons. left. reflexivity.
  - reflexivity.
Defined.

(** ** Values of one exact type *)

(** X4: Two Integers, two Booleans, two Texts or two Nulls compare equal exactly
    when they are the same value; no tolerance enters, and no tolerance,
    not even a negative one, makes the comparison fail. *)
Theorem compare_exact_types (x y : Value) (epsilon : F64.float) :
  type_of x = type_of y ->
  type_of x <> TFloat ->
  type_of x <> TDecimal ->
  (exists b, compare x y epsilon = inr b)
  /\ (compare x y epsilon = inr true <-> x = y).
Proof.
  intros Hty Hf Hd.
  destruct x as [|bx|nx|cx ex|fx|sx], y as [|b_y|ny|cy ey|fy|sy];
    simpl in Hty; try discriminate Hty; try contradiction; simpl.
  - split; [eauto|]. split; reflexivity.
  - split; [eauto|]. split.
    + intros H. injection H as H. apply Qeq_bool_iff in H.
      apply (proj1 (inject_Z_injective _ _)) in H.
      destruct bx, b_y; try reflexivity; discriminate H.
    + intros H. injection H as ->. f_equal. apply Qeq_bool_iff. reflexivity.
  - split; [eauto|]. split.
    + intros H. injection H as H. apply Qeq_bool_iff in H.
      apply (proj1 (inject_Z_injective _ _)) in H.
      congruence.
    + intros H. injection H as ->. f_equal. apply Qeq_bool_iff. reflexivity.
  - split; [eauto|]. split.
    + intros H. injection H as H. apply String.eqb_eq in H. congruence.
    + intros H. injection H as ->. f_equal. apply String.eqb_refl.
Qed.

Lemma compare_exact_types_witness :
  compare (VInt 5) (VInt 6) (F64.of_decimal (-1) 0) <> inr true
  /\ compare (VText "a") (VText "a") eps_default = inr true.
Proof.
  split.
  - intros H.
    apply (compare_exact_types (VInt 5) (VInt 6) (F64.of_decimal (-1) 0)) in H;
      [discriminate H | reflexivity | discriminate | discriminate].
  - apply (compare_exact_types (VText "a") (VText "a") eps_default);
      [reflexivity | discriminate | discriminate | reflexivity].
Defined.

(** ** Status reconciler: errors, and what it leaves alone *)

Lemma update_loop_app fs prefix unmatch_queries l1 l2 files t :
  update_loop fs prefix unmatch_queries (l1 ++ l2) files t
  = match update_loop fs prefix unmatch_queries l1 files t with
    | (t', inr files') => update_loop fs prefix unmatch_queries l2 files' t'
    | (t', inl e) => (t', inl e)
    end.
Proof.
  revert files t. induction l1 as [|q l1 IH]; intros files t; [reflexivity|].
  simpl. unfold mbind, M_bind.
  destruct (update_one fs prefix unmatch_queries q files t) as [t' [e|files']];
    [reflexivity | apply IH].
Qed.

Lemma update_one_no_file fs prefix unmatch_queries query_name files t :
  glob_glob fs (summary_wildcard prefix query_name) = [] ->
  update_one fs prefix unmatch_queries query_name files t
  = (t, inl (Exception ("No summary file found for query "
                        ++ query_name ++ " in folder " ++ prefix ++ "."))).
Proof.
  intros H. unfold update_one.
  change (prefix ++ "/*" ++ query_name ++ "-*.json")%string
    with (summary_wildcard prefix query_name).
  rewrite H. reflexivity.
Qed.

Lemma update_one_many_files fs prefix unmatch_queries query_name files t :
  (1 < length (glob_glob fs (summary_wildcard prefix query_name)))%nat ->
  update_one fs prefix unmatch_queries query_name files t
  = (t, inl (Exception ("More than one summary file found for query "
                        ++ query_name ++ " in folder " ++ prefix ++ "."))).
Proof.
  intros H. unfold update_one.
  change (prefix ++ "/*" ++ query_name ++ "-*.json")%string
    with (summary_wildcard prefix query_name).
  apply Nat.ltb_lt in H. rewrite H. reflexivity.
Qed.

Lemma update_one_key_error fs prefix unmatch_queries query_name files t
      filename fields :
  glob_glob fs (summary_wildcard prefix query_name) = [filename] ->
  files !! filename = Some (JObj fields) ->
  query_name ∈ unmatch_queries ->
  dict_get "queryStatus" fields = None ->
  update_one fs prefix unmatch_queries query_name files t
  = (t, inl (KeyError "queryStatus")).
Proof.
  intros Hglob Hfile Hin Hkey. unfold update_one.
  change (prefix ++ "/*" ++ query_name ++ "-*.json")%string
    with (summary_wildcard prefix query_name).
  rewrite Hglob. simpl. rewrite Hfile.
  unfold validation_status. rewrite bool_decide_eq_true_2 by exact Hin.
  unfold getitem. rewrite Hkey. reflexivity.
Qed.

Section Reconciler.

Variable fs : FileSystem.
Variable prefix : string.
Variable unmatch_queries : list string.
Variable file_of : string -> string.
Variable fields_of : string -> list (string * json).
Variable status_of : string -> list json.

Lemma update_summary_prefix_run before rest files :
  path_exists fs prefix = true ->
  summaries_in_place fs prefix unmatch_queries file_of fields_of status_of
    before files ->
  exists files1 : gmap string json,
    run (update_summary fs (before ++ rest) prefix unmatch_queries files)
    = update_loop fs prefix unmatch_queries rest files1 [EvUpdating prefix]
    /\ (forall f, f ∉ file_of <$> before -> files1 !! f = files !! f).
Proof.
  intros Hexists (Hfiles & Hstatus & Hnodup).
  destruct (update_loop_run fs prefix unmatch_queries file_of fields_of status_of
              before files [EvUpdating prefix] Hfiles Hstatus Hnodup)
    as (files1 & Hrun & _ & Hframe).
  exists files1. split; [|exact Hframe].
  unfold run, update_summary. rewrite Hexists.
  change (negb true) with false. cbv iota.
  rewrite bind_emit. change ([] ++ [EvUpdating prefix]) with [EvUpdating prefix].
  rewrite update_loop_app, Hrun. reflexivity.
Qed.

(** X14: The reconciler fails at the first query, in suite order, that does not
    have exactly one summary file: with the exception for no file when the
    glob finds none, with the one for several files when it finds more than
    one.  The queries after it are not looked at. *)
Theorem update_summary_needs_one_file_per_query
    (before after : list string) (q : string) (files : gmap string json) :
  path_exists fs prefix = true ->
  summaries_in_place fs prefix unmatch_queries file_of fields_of status_of
    before files ->
  (glob_glob fs (summary_wildcard prefix q) = [] ->
   run (update_summary fs (before ++ q :: after) prefix unmatch_queries files)
   = ([EvUpdating prefix],
      inl (Exception ("No summary file found for query "
                      ++ q ++ " in folder " ++ prefix ++ "."))))
  /\ ((1 < length (glob_glob fs (summary_wildcard prefix q)))%nat ->
      run (update_summary fs (before ++ q :: after) prefix unmatch_queries files)
      = ([EvUpdating prefix],
         inl (Exception ("More than one summary file found for query "
                         ++ q ++ " in folder " ++ prefix ++ ".")))).
Proof.
  intros Hexists Hplace.
  destruct (update_summary_prefix_run before (q :: after) files Hexists Hplace)
    as (files1 & Hrun & _).
  rewrite Hrun. simpl update_loop. split; intros Hglob.
  - rewrite (bind_raise _ _ _ _ _ (update_one_no_file _ _ _ _ _ _ Hglob)).
    reflexivity.
  - rewrite (bind_raise _ _ _ _ _ (update_one_many_files _ _ _ _ _ _ Hglob)).
    reflexivity.
Qed.

(** X15: A query that failed validation needs a [queryStatus] in its summary:
    without the key the reconciler raises [KeyError]. *)
Theorem update_summary_failed_query_needs_queryStatus
    (before after : list string) (q filename : string)
    (fields : list (string * json)) (files : gmap string json) :
  path_exists fs prefix = true ->
  summaries_in_place fs prefix unmatch_queries file_of fields_of status_of
    before files ->
  glob_glob fs (summary_wildcard prefix q) = [filename] ->
  filename ∉ file_of <$> before ->
  files !! filename = Some (JObj fields) ->
  q ∈ unmatch_queries ->
  dict_get "queryStatus" fields = None ->
  run (update_summary fs (before ++ q :: after) prefix unmatch_queries files)
  = ([EvUpdating prefix], inl (KeyError "queryStatus")).
Proof.
  intros Hexists Hplace Hglob Hfresh Hfile Hin Hkey.
  destruct (update_summary_prefix_run before (q :: after) files Hexists Hplace)
    as (files1 & Hrun & Hframe).
  rewrite Hrun. simpl update_loop.
  rewrite (bind_raise _ _ _ _ _
             (update_one_key_error fs prefix unmatch_queries q files1 _
                filename fields Hglob ltac:(rewrite (Hframe _ Hfresh); exact Hfile)
                Hin Hkey)).
  reflexivity.
Qed.

Lemma dict_set_twice k v v' fields :
  dict_set k v (dict_set k v' fields) = dict_set k v fields.
Proof.
  induction fields as [|[k0 v0] rest IH]; simpl.
  - rewrite String.eqb_refl. reflexivity.
  - destruct (String.eqb k0 k) eqn:E; simpl.
    + rewrite String.eqb_refl. reflexivity.
    + rewrite E, IH. reflexivity.
Qed.

(** X16: A successful reconciliation touches nothing but the
    [queryValidationStatus] of the summary files: files that are no query's
    summary keep their content, and in every summary all other keys,
    [queryStatus] among them, keep their value. *)
Theorem update_summary_changes_only_the_validation_status
    (query_dict : list string) (files : gmap string json) :
  path_exists fs prefix = true ->
  summaries_in_place fs prefix unmatch_queries file_of fields_of status_of
    query_dict files ->
  exists files' : gmap string json,
    run (update_summary fs query_dict prefix unmatch_queries files)
    = ([EvUpdating prefix], inr files')
    /\ (forall f, f ∉ file_of <$> query_dict -> files' !! f = files !! f)
    /\ (forall q, q ∈ query_dict ->
          exists summary',
            files' !! file_of q = Some summary'
            /\ forall k, k <> "queryValidationStatus" ->
                 getitem summary' k = getitem (JObj (fields_of q)) k).
Proof.
  intros Hexists (Hfiles & Hstatus & Hnodup).
  destruct (update_loop_run fs prefix unmatch_queries file_of fields_of status_of
              query_dict files [EvUpdating prefix] Hfiles Hstatus Hnodup)
    as (files' & Hrun & Hdone & Hframe).
  exists files'. split; [|split; [exact Hframe|]].
  - unfold run, update_summary. rewrite Hexists.
    change (negb true) with false. cbv iota. rewrite bind_emit. exact Hrun.
  - intros q Hq. eexists. split; [apply Hdone; exact Hq|].
    intros k Hk. simpl. rewrite dict_get_set_ne by congruence. reflexivity.
Qed.

(** X17: Reconciling a second time changes nothing: the statuses written depend
    on [queryStatus] and the failed set only, and the first pass leaves both
    as they were. *)
Theorem update_summary_idempotent
    (query_dict : list string) (files : gmap string json) :
  path_exists fs prefix = true ->
  summaries_in_place fs prefix unmatch_queries file_of fields_of status_of
    query_dict files ->
  exists files' : gmap string json,
    run (update_summary fs query_dict prefix unmatch_queries files)
    = ([EvUpdating prefix], inr files')
    /\ run (update_summary fs query_dict prefix unmatch_queries files')
       = ([EvUpdating prefix], inr files').
Proof.
  intros Hexists (Hfiles & Hstatus & Hnodup).
  destruct (update_loop_run fs prefix unmatch_queries file_of fields_of status_of
              query_dict files [EvUpdating prefix] Hfiles Hstatus Hnodup)
    as (files' & Hrun & Hdone & Hframe).
  set (fields_of' := fun q =>
         dict_set "queryValidationStatus"
           (JArr [JStr (new_status unmatch_queries q (status_of q))])
           (fields_of q)).
  destruct (update_loop_run fs prefix unmatch_queries file_of fields_of' status_of
              query_dict files' [EvUpdating prefix])
    as (files'' & Hrun' & Hdone' & Hframe').
  { intros q Hq. split; [apply Hfiles; exact Hq | apply Hdone; exact Hq]. }
  { intros q Hq Hin. unfold fields_of'.
    rewrite dict_get_set_ne by discriminate. apply Hstatus; assumption. }
  { exact Hnodup. }
  assert (Hsame : files'' = files').
  { apply map_eq. intros f.
    destruct (decide (f ∈ file_of <$> query_dict)) as [Hin|Hout].
    - apply list_elem_of_fmap in Hin as (q & -> & Hq).
      rewrite (Hdone' q Hq), (Hdone q Hq). unfold fields_of'.
      rewrite dict_set_twice. reflexivity.
    - apply Hframe'. exact Hout. }
  exists files'. unfold run, update_summary. rewrite Hexists.
  change (negb true) with false. cbv iota. rewrite !bind_emit.
  split; [exact Hrun|].
  etransitivity; [exact Hrun'|]. rewrite Hsame. reflexivity.
Qed.

End Reconciler.

Lemma demo_in_place :
  summaries_in_place demo_fs "s" ["query1"; "query2"] demo_file_of demo_fields
    demo_status ["query1"; "query2"; "query3"] demo_files.
Proof.
  split; [|split].
  - intros q Hq.
    repeat (apply elem_of_cons in Hq as [->|Hq]);
      [| | | apply elem_of_nil in Hq; contradiction];
      split; vm_compute; reflexivity.
  - intros q Hq _.
    repeat (apply elem_of_cons in Hq as [->|Hq]);
      [| | | apply elem_of_nil in Hq; contradiction];
      vm_compute; reflexivity.
  - by_evaluation.
Defined.

Lemma wide_in_place :
  summaries_in_place wide_fs "s" ["query4"] demo_file_of demo_fields
    demo_status ["query1"] wide_files.
Proof.
  split; [|split].
  - intros q Hq. apply list_elem_of_singleton in Hq. subst q.
    split; vm_compute; reflexivity.
  - intros q Hq Hin. apply list_elem_of_singleton in Hq. subst q.
    vm_compute. reflexivity.
  - by_evaluation.
Defined.

Lemma update_summary_needs_one_file_witness :
  run (update_summary wide_fs (["query1"] ++ "query9" :: ["query4"]) "s"
         ["query4"] wide_files)
  = ([EvUpdating "s"],
     inl (Exception "No summary file found for query query9 in folder s."))
  /\ run (update_summary wide_fs (["query1"] ++ "query8" :: ["query4"]) "s"
            ["query4"] wide_files)
     = ([EvUpdating "s"],
        inl (Exception "More than one summary file found for query query8 in folder s.")).
Proof.
  split.
  - apply (update_summary_needs_one_file_per_query wide_fs "s" ["query4"]
             demo_file_of demo_fields demo_status ["query1"] ["query4"] "query9"
             wide_files); [reflexivity | exact wide_in_place | reflexivity].
  - apply (update_summary_needs_one_file_per_query wide_fs "s" ["query4"]
             demo_file_of demo_fields demo_status ["query1"] ["query4"] "query8"
             wide_files); [reflexivity | exact wide_in_place | vm_compute; lia].
Defined.

Lemma update_summary_failed_query_needs_queryStatus_witness :
  run (update_summary wide_fs (["query1"] ++ "query4" :: []) "s"
         ["query4"] wide_files)
  = ([EvUpdating "s"], inl (KeyError "queryStatus")).
Proof.
  apply (update_summary_failed_query_needs_queryStatus wide_fs "s" ["query4"]
           demo_file_of demo_fields demo_status ["query1"] [] "query4"
           "s/p-query4-1.json" [("queryValidationStatus", JArr [])] wide_files).
  - reflexivity.
  - exact wide_in_place.
  - reflexivity.
  - by_evaluation.
  - vm_compute. reflexivity.
  - by_evaluation.
  - reflexivity.
Defined.

Lemma update_summary_changes_only_witness :
  exists files' s1,
    run (update_summary demo_fs ["query1"; "query2"; "query3"] "s"
           ["query1"; "query2"] demo_files)
    = ([EvUpdating "s"], inr files')
    /\ files' !! demo_file_of "query1" = Some s1
    /\ getitem s1 "queryStatus" = inr (JArr [JStr "Completed"]).
Proof.
  destruct (update_summary_changes_only_the_validation_status demo_fs "s"
              ["query1"; "query2"] demo_file_of demo_fields demo_status
              ["query1"; "query2"; "query3"] demo_files)
    as (files' & Hrun & _ & Hkeys).
  - reflexivity.
  - exact demo_in_place.
  - destruct (Hkeys "query1") as (s1 & Hs1 & Hk); [by_evaluation|].
    exists files', s1. split; [exact Hrun|]. split; [exact Hs1|].
    rewrite Hk by discriminate. reflexivity.
Defined.

Lemma update_summary_idempotent_witness :
  exists files',
    run (update_summary demo_fs ["query1"; "query2"; "query3"] "s"
           ["query1"; "query2"] demo_files)
    = ([EvUpdating "s"], inr files')
    /\ run (update_summary demo_fs ["query1"; "query2"; "query3"] "s"
              ["query1"; "query2"] files')
       = ([EvUpdating "s"], inr files').
Proof.
  apply (update_summary_idempotent demo_fs "s" ["query1"; "query2"]
           demo_file_of demo_fields demo_status
           ["query1"; "query2"; "query3"] demo_files).
  - reflexivity.
  - exact demo_in_place.
Defined.

(** ** Floats: infinities and the relative tolerance *)

(** X3: An infinity matches the infinity of the same sign and nothing else,
    under every tolerance [math.isclose] accepts. *)
Theorem compare_infinity_matches_only_itself
    (s : bool) (x epsilon : F64.float) :
  tolerance_ok epsilon ->
  compare (VFloat (S754_infinity s)) (VFloat x) epsilon
  = inr (match x with S754_infinity s' => Bool.eqb s s' | _ => false end)
  /\ compare (VFloat x) (VFloat (S754_infinity s)) epsilon
     = inr (match x with S754_infinity s' => Bool.eqb s s' | _ => false end).
Proof.
  intros Heps. split;
    (destruct x as [sx|sx| |sx mx ex]; simpl; unfold isclose; rewrite Heps;
     try reflexivity; try (destruct s; reflexivity);
     try (destruct sx; reflexivity); destruct s, sx; reflexivity).
Qed.

Lemma compare_infinity_witness :
  compare (VFloat F64.pinf) (VFloat F64.pinf) eps_default = inr true
  /\ compare (VFloat F64.pinf) (VFloat F64.ninf) eps_default = inr false
  /\ compare (VFloat f_1_0) (VFloat F64.pinf) eps_default = inr false.
Proof.
  split; [|split].
  - apply (compare_infinity_matches_only_itself false F64.pinf eps_default).
    vm_compute. reflexivity.
  - apply (compare_infinity_matches_only_itself false F64.ninf eps_default).
    vm_compute. reflexivity.
  - apply (compare_infinity_matches_only_itself false f_1_0 eps_default).
    vm_compute. reflexivity.
Defined.

Lemma SFleb_finite m1 e1 m2 e2 :
  SFleb (S754_finite false m1 e1) (S754_finite false m2 e2) = true
  <-> e1 < e2 \/ (e1 = e2 /\ (m1 <= m2)%positive).
Proof.
  unfold SFleb, SFcompare. change (Pos.compare_cont Eq m1 m2) with (m1 ?= m2)%positive.
  destruct (Z.compare_spec e1 e2) as [He|He|He].
  - destruct (Pos.compare_spec m1 m2) as [Hm|Hm|Hm]; split; intros H;
      try discriminate H; try reflexivity; try lia.
  - split; [intros _; lia | reflexivity].
  - split; [discriminate | lia].
Qed.

Lemma SFltb_finite m1 e1 m2 e2 :
  SFltb (S754_finite false m1 e1) (S754_finite false m2 e2) = true
  <-> e1 < e2 \/ (e1 = e2 /\ (m1 < m2)%positive).
Proof.
  unfold SFltb, SFcompare. change (Pos.compare_cont Eq m1 m2) with (m1 ?= m2)%positive.
  destruct (Z.compare_spec e1 e2) as [He|He|He].
  - destruct (Pos.compare_spec m1 m2) as [Hm|Hm|Hm]; split; intros H;
      try discriminate H; try reflexivity; try lia.
  - split; [intros _; lia | reflexivity].
  - split; [discriminate | lia].
Qed.

(** Among floats that are not negative and not NaN, [<=] is a total
    preorder. *)
Lemma leb_trans a b c :
  signed_as false a -> signed_as false b -> signed_as false c ->
  F64.leb a b = true -> F64.leb b c = true -> F64.leb a c = true.
Proof.
  unfold F64.leb.
  destruct a as [sa|sa| |sa ma ea], b as [sb|sb| |sb mb eb],
           c as [sc|sc| |sc mc ec]; simpl;
    intros Ha Hb Hc; try contradiction; subst;
    try (intros; reflexivity); try (intros; discriminate).
  intros H1 H2.
  apply SFleb_finite in H1. apply SFleb_finite in H2. apply SFleb_finite. lia.
Qed.

Lemma ltb_leb a b :
  signed_as false a -> signed_as false b ->
  F64.ltb a b = true -> F64.leb a b = true.
Proof.
  unfold F64.ltb, F64.leb, SFltb, SFleb. intros _ _.
  destruct (SFcompare a b) as [[]|]; intros H; try discriminate H; reflexivity.
Qed.

Lemma not_ltb_leb a b :
  signed_as false a -> signed_as false b ->
  F64.ltb a b = false -> F64.leb b a = true.
Proof.
  unfold F64.ltb, F64.leb, SFltb, SFleb. intros Ha Hb.
  rewrite (SFcompare_swap a b).
  destruct a, b; simpl in *; try contradiction; subst; simpl;
    try (intros; reflexivity); try (intros; discriminate).
  destruct (e ?= e0); simpl; try (intros; reflexivity); try (intros; discriminate).
  destruct (Pos.compare_cont Eq m m0); simpl;
    try (intros; reflexivity); intros; discriminate.
Qed.

Lemma leb_max d x y :
  signed_as false d -> signed_as false x -> signed_as false y ->
  F64.leb d (F64.max x y) = F64.leb d x || F64.leb d y.
Proof.
  intros Hd Hx Hy. unfold F64.max.
  destruct (F64.ltb x y) eqn:Hlt.
  - destruct (F64.leb d x) eqn:E; [|reflexivity]. simpl.
    apply (leb_trans d x y); auto using ltb_leb.
  - destruct (F64.leb d y) eqn:E; [|rewrite orb_false_r; reflexivity].
    rewrite orb_true_r.
    apply (leb_trans d y x); auto using not_ltb_leb.
Qed.

Lemma signed_as_max x y :
  signed_as false x -> signed_as false y -> signed_as false (F64.max x y).
Proof. intros Hx Hy. unfold F64.max. destruct (F64.ltb x y); assumption. Qed.

Lemma leb_zero x : signed_as false x -> F64.leb F64.zero x = true.
Proof. destruct x; simpl; try contradiction; intros ->; reflexivity. Qed.

Lemma fabs_signed x : F64.isnan x = false -> signed_as false (F64.fabs x).
Proof. destruct x; simpl; try discriminate; reflexivity. Qed.

Lemma mul_not_nan a b :
  F64.is_finite a = true -> F64.is_finite b = true ->
  F64.isnan (F64.mul a b) = false.
Proof.
  destruct a as [sa|sa| |sa ma ea], b as [sb|sb| |sb mb eb]; simpl;
    try discriminate; try reflexivity. intros _ _.
  apply (signed_as_not_nan (xorb sa sb)). apply binary_round_aux_signed. lia.
Qed.

Lemma sub_not_nan a b :
  F64.is_finite a = true -> F64.is_finite b = true ->
  F64.isnan (F64.sub a b) = false.
Proof.
  destruct a as [sa|sa| |sa ma ea], b as [sb|sb| |sb mb eb]; simpl;
    try discriminate; try reflexivity; intros _ _.
  - destruct sa, sb; reflexivity.
  - apply binary_normalize_not_nan.
Qed.

Lemma SFcompare_finite_eq s1 m1 e1 s2 m2 e2 :
  SFcompare (S754_finite s1 m1 e1) (S754_finite s2 m2 e2) = Some Eq ->
  s1 = s2 /\ m1 = m2 /\ e1 = e2.
Proof.
  simpl. change (Pos.compare_cont Eq m1 m2) with (m1 ?= m2)%positive.
  destruct s1, s2; try discriminate;
    destruct (Z.compare_spec e1 e2); try discriminate;
    destruct (Pos.compare_spec m1 m2); try discriminate; intros _; auto.
Qed.

Lemma sub_equal_is_zero a b :
  F64.is_finite a = true -> F64.is_finite b = true ->
  F64.eqb a b = true -> F64.fabs (F64.sub a b) = F64.zero.
Proof.
  unfold F64.eqb, SFeqb. intros Ha Hb H.
  destruct a as [sa|sa| |sa ma ea], b as [sb|sb| |sb mb eb];
    try discriminate Ha; try discriminate Hb.
  - destruct sa, sb; reflexivity.
  - simpl in H. destruct sb; discriminate H.
  - simpl in H. destruct sa; discriminate H.
  - destruct (SFcompare (S754_finite sa ma ea) (S754_finite sb mb eb))
      as [[]|] eqn:E; try discriminate H.
    apply SFcompare_finite_eq in E as (-> & -> & ->).
    unfold F64.sub, SFsub, shl_align. rewrite Z.min_id, !Z.sub_diag.
    reflexivity.
Qed.

(** X2: For two floats that are neither infinite nor both NaN, under a finite
    tolerance that is not negative, [compare] is the relative test in
    binary64 arithmetic: it accepts exactly when [|expected - actual|] is at
    most the larger of [|epsilon * expected|] and [|epsilon * actual|],
    each operation rounded to the nearest float. *)
Theorem compare_floats_is_the_relative_test (expected actual epsilon : F64.float) :
  F64.isinf expected = false ->
  F64.isinf actual = false ->
  F64.isnan expected && F64.isnan actual = false ->
  F64.is_finite epsilon = true ->
  tolerance_ok epsilon ->
  compare (VFloat expected) (VFloat actual) epsilon
  = inr (F64.leb (F64.fabs (F64.sub expected actual))
           (F64.max (F64.fabs (F64.mul epsilon expected))
                    (F64.fabs (F64.mul epsilon actual)))).
Proof.
  intros Hia Hib Hnan Hfin Heps. simpl. rewrite Hnan.
  unfold isclose. rewrite Heps, Hia, Hib. simpl orb.
  destruct (F64.is_finite expected) eqn:Ha.
  2:{ destruct expected; try discriminate. simpl in Hnan.
      destruct actual; try discriminate; reflexivity. }
  destruct (F64.is_finite actual) eqn:Hb.
  2:{ destruct actual; try discriminate.
      destruct expected; try discriminate; reflexivity. }
  pose proof (fabs_signed _ (mul_not_nan _ _ Hfin Ha)) as Hx.
  pose proof (fabs_signed _ (mul_not_nan _ _ Hfin Hb)) as Hy.
  pose proof (fabs_signed _ (sub_not_nan _ _ Ha Hb)) as Hd.
  destruct (F64.eqb expected actual) eqn:Heq.
  - rewrite (sub_equal_is_zero _ _ Ha Hb Heq).
    rewrite leb_zero by (apply signed_as_max; assumption). reflexivity.
  - rewrite (sub_abs_swap actual expected).
    rewrite (leb_max _ _ _ Hd Hx Hy). f_equal.
    destruct (F64.leb (F64.fabs (F64.sub expected actual)) F64.zero) eqn:Hz.
    + rewrite orb_true_r. symmetry. apply orb_true_iff. left.
      apply (leb_trans _ F64.zero); try assumption; [reflexivity|].
      apply leb_zero. exact Hx.
    + rewrite orb_false_r. apply orb_comm.
Qed.

Lemma compare_floats_witness :
  compare (VFloat f_1_0) (VFloat f_1_0000099999) eps_default = inr true
  /\ compare (VFloat f_1_0) (VFloat f_1_0000200001) eps_default = inr false.
Proof.
  split.
  - rewrite (compare_floats_is_the_relative_test f_1_0 f_1_0000099999 eps_default);
      vm_compute; reflexivity.
  - rewrite (compare_floats_is_the_relative_test f_1_0 f_1_0000200001 eps_default);
      vm_compute; reflexivity.
Defined.

(** ** Excluded columns *)

Lemma select_agree {A} (mask : list bool) (r r' : list A) :
  length r = length r' ->
  (forall i, mask !! i = Some true -> r !! i = r' !! i) ->
  select mask r = select mask r'.
Proof.
  revert r r'. induction mask as [|b mask IH]; intros [|x r] [|x' r'] Hlen Hag;
    simpl in *; try reflexivity; try discriminate.
  assert (Htail : select mask r = select mask r').
  { apply IH; [congruence|]. intros i Hi. apply (Hag (S i)). exact Hi. }
  destruct b; [|exact Htail].
  specialize (Hag O eq_refl). simpl in Hag. injection Hag as ->.
  rewrite Htail. reflexivity.
Qed.

Lemma drop_agree cols df df' :
  agree_outside cols df df' -> drop cols df = drop cols df'.
Proof.
  intros [Hsch Hrows]. unfold drop. rewrite <- Hsch. f_equal.
  induction Hrows as [|r r' rs rs' [Hlen Hag] _ IH]; [reflexivity|].
  simpl. f_equal; [|exact IH].
  apply select_agree; [exact Hlen|].
  intros i Hi. rewrite list_lookup_fmap in Hi.
  destruct (schema df !! i) as [f|] eqn:Hf; [|discriminate Hi].
  simpl in Hi. injection Hi as Hi. apply negb_true_iff in Hi.
  apply (Hag i f Hf). intros Hin.
  apply not_true_iff_false in Hi. apply Hi.
  apply existsb_exists. exists (name f). split.
  - apply list_elem_of_In. exact Hin.
  - apply String.eqb_refl.
Qed.

Lemma agree_outside_count cols df df' :
  agree_outside cols df df' -> count df = count df'.
Proof.
  intros [_ Hrows]. unfold count. f_equal. eapply Forall2_length. exact Hrows.
Qed.

Lemma compare_results_by_prepared
    (st st' : Storage) (input1 input2 input1_format input2_format : string)
    (ignore_ordering use_iterator : bool) (query_name : string)
    (max_errors : Z) (epsilon : F64.float) (df1 df2 df1' df2' : DataFrame) :
  st input1_format input1 = Some df1 ->
  st input2_format input2 = Some df2 ->
  st' input1_format input1 = Some df1' ->
  st' input2_format input2 = Some df2' ->
  count df1 = count df1' ->
  count df2 = count df2' ->
  prepare df1 query_name ignore_ordering = prepare df1' query_name ignore_ordering ->
  prepare df2 query_name ignore_ordering = prepare df2' query_name ignore_ordering ->
  run (compare_results st input1 input2 input1_format input2_format
         ignore_ordering query_name use_iterator max_errors epsilon)
  = run (compare_results st' input1 input2 input1_format input2_format
           ignore_ordering query_name use_iterator max_errors epsilon).
Proof.
  intros H1 H2 H1' H2' Hc1 Hc2 Hp1 Hp2. unfold run, compare_results.
  destruct (bool_decide (query_name ∈ SKIP_QUERIES)); [reflexivity|].
  rewrite (bind_ok _ _ _ _ _ (load_some _ _ _ _ _ H1)).
  rewrite (bind_ok _ _ _ _ _ (load_some _ _ _ _ _ H2)).
  rewrite (bind_ok _ _ _ _ _ (load_some _ _ _ _ _ H1')).
  rewrite (bind_ok _ _ _ _ _ (load_some _ _ _ _ _ H2')).
  rewrite <- Hc1, <- Hc2.
  destruct (count df1 =? count df2); [|reflexivity].
  rewrite !(bind_ok _ _ _ _ _ (collect_results_run _ _ _ _ _)).
  rewrite <- Hc1, <- Hc2, <- Hp1, <- Hp2. reflexivity.
Qed.

(** X11: The columns a query is configured to skip have no influence on its
    comparison: when one side is replaced by a frame that differs from it
    in those columns only, the run is the same, verdict, sampled rows and
    all.  For [query18] this is the column [o_orderkey]. *)
Theorem skipped_columns_do_not_matter
    (st st' : Storage) (input1 input2 input1_format input2_format : string)
    (ignore_ordering use_iterator : bool) (query_name : string)
    (cols : list string) (max_errors : Z) (epsilon : F64.float)
    (df1 df1' df2 : DataFrame) :
  SKIP_COLUMNS !! query_name = Some cols ->
  agree_outside cols df1 df1' ->
  st input1_format input1 = Some df1 ->
  st' input1_format input1 = Some df1' ->
  st input2_format input2 = Some df2 ->
  st' input2_format input2 = Some df2 ->
  SKIP_COLUMNS !! "query18" = Some ["o_orderkey"]
  /\ prepare df1 query_name ignore_ordering
     = prepare df1' query_name ignore_ordering
  /\ run (compare_results st input1 input2 input1_format input2_format
            ignore_ordering query_name use_iterator max_errors epsilon)
     = run (compare_results st' input1 input2 input1_format input2_format
              ignore_ordering query_name use_iterator max_errors epsilon).
Proof.
  intros Hcols Hag H1 H1' H2 H2'.
  assert (Hp : prepare df1 query_name ignore_ordering
               = prepare df1' query_name ignore_ordering).
  { unfold prepare. rewrite Hcols, (drop_agree _ _ _ Hag). reflexivity. }
  split; [reflexivity|]. split; [exact Hp|].
  apply (compare_results_by_prepared st st' input1 input2 input1_format
           input2_format ignore_ordering use_iterator query_name max_errors
           epsilon df1 df2 df1' df2 H1 H2 H1' H2'
           (agree_outside_count _ _ _ Hag) eq_refl Hp eq_refl).
Qed.

Lemma skipped_columns_witness :
  run (compare_results (two_sided (orders_frame 1 2) (orders_frame 7 8))
         "left" "right" "parquet" "parquet" false "query18" true 10 eps_default)
  = run (compare_results (two_sided (orders_frame 7 8) (orders_frame 7 8))
           "left" "right" "parquet" "parquet" false "query18" true 10 eps_default).
Proof.
  apply (skipped_columns_do_not_matter
           (two_sided (orders_frame 1 2) (orders_frame 7 8))
           (two_sided (orders_frame 7 8) (orders_frame 7 8))
           "left" "right" "parquet" "parquet" false true "query18"
           ["o_orderkey"] 10 eps_default
           (orders_frame 1 2) (orders_frame 7 8) (orders_frame 7 8)).
  - reflexivity.
  - split; [reflexivity|].
    repeat (constructor; [split; [reflexivity|];
                          intros [|[|i]] f Hf Hn; simpl in Hf;
                          [injection Hf as <-; exfalso; apply Hn; simpl;
                           apply list_elem_of_here
                          | reflexivity | discriminate Hf] |]).
    constructor.
  - reflexivity.
  - reflexivity.
  - reflexivity.
  - reflexivity.
Defined.

(** ** Decimals are compared as floats *)

(** X5: Two decimals are compared through their nearest floats only: when both
    round to the same float they compare equal under every accepted
    tolerance, a tolerance of zero included, however they differ beyond the
    precision of a float. *)
Theorem decimals_with_one_float_compare_equal
    (coef1 exp1 coef2 exp2 : Z) (epsilon : F64.float) :
  float_of_decimal coef1 exp1 = float_of_decimal coef2 exp2 ->
  tolerance_ok epsilon ->
  compare (VDecimal coef1 exp1) (VDecimal coef2 exp2) epsilon = inr true.
Proof.
  intros Hsame Heps. simpl. rewrite Hsame.
  apply isclose_refl; [apply float_of_decimal_not_nan | exact Heps].
Qed.

Lemma decimals_with_one_float_witness :
  compare (VDecimal 1 (-1)) (VDecimal 1000000000000000000001 (-22)) F64.zero
  = inr true
  /\ py_eq (VDecimal 1 (-1)) (VDecimal 1000000000000000000001 (-22)) = false.
Proof.
  split; [|vm_compute; reflexivity].
  apply (decimals_with_one_float_compare_equal 1 (-1) 1000000000000000000001 (-22)
           F64.zero); vm_compute; reflexivity.
Defined.
